(** * badger-s3: the cached S3 storage of CertMagic, embedded in Rocq

    The development follows the two Go files of package [badgers3]:
    [cache.go] (the BadgerDB-backed local cache) and the storage file that
    defines [S3Storage] with [NewS3Storage], [Lock], [Unlock], [Store],
    [Load], [Delete], [Exists], [List] and [Stat].

    Go values are modelled as follows.
    - [[]byte] is [list byte]; [string] is [string]; the conversions
      [[]byte(s)] and [string(b)] are [list_byte_of_string] and
      [string_of_list_byte].
    - [time.Time] and [time.Duration] are integers counting nanoseconds.
    - a Go [error] is [option error], [None] being [nil].
    - the process state (the package variable [db], the remote store behind
      the minio client, the wall clock) is threaded explicitly through a
      small state monad; every call that reaches the remote store is also
      appended to a log so that "no remote operation" can be stated. *)

From Stdlib Require Import ZArith List Lia.
From Stdlib.Strings Require Import Ascii String Byte.
From stdpp Require Import base gmap strings pretty.
Import ListNotations.

Local Open Scope string_scope.
Local Open Scope Z_scope.

(** ** Go base types *)

Definition bytes : Type := list byte.
Definition Time : Type := Z.
Definition Duration : Type := Z.

Module time.
Definition Second : Duration := 1000000000.
Definition Minute : Duration := 60 * Second.
Definition Hour : Duration := 60 * Minute.
(** [t.Add(d)] and [t.Before(u)] *)
Definition Add (t : Time) (d : Duration) : Time := t + d.
Definition Before (t u : Time) : bool := t <? u.
(** [t.Unix()]: whole seconds since the epoch, rounded down. *)
Definition Unix (t : Time) : Z := t / Second.
End time.

(** The conversion [uint64(x)] of an [int64]: a negative value wraps. *)
Definition uint64 (x : Z) : Z := if x <? 0 then x + 2 ^ 64 else x.

(** Error values.  [errorsNew] covers [errors.New] and [fmt.Errorf];
    [fsErrNotExist] is the sentinel [fs.ErrNotExist]; [libError] stands for
    an error value produced inside one of the libraries (minio, badger,
    encoding/json, io). *)
Inductive error : Type :=
| errorsNew (msg : string)
| fsErrNotExist
| libError (pkg msg : string).

(** An [io.Reader] is modelled by what reading it to the end returns: the
    bytes read and the error that stopped the read, if any. *)
Definition Reader : Type := (bytes * option error)%type.

Definition ioutil_ReadAll (r : Reader) : bytes * option error := r.

(** [minio.ObjectInfo] (the fields the package reads) and
    [certmagic.KeyInfo]. *)
Record ObjectInfo : Type := {
  oi_Key : string;
  oi_Size : Z;
  oi_LastModified : Time
}.

Record KeyInfo : Type := {
  Key : string;
  Modified : Time;
  Size : Z;
  IsTerminal : bool
}.

Definition KeyInfo_zero : KeyInfo :=
  {| Key := EmptyString; Modified := 0; Size := 0;
     IsTerminal := false |}.

(** ** The collaborators

    The minio client, the wall clock and [time.Sleep] form the outside
    world of the package.  Nothing is assumed about them: [E] is the state
    of that world and every operation may change it and answer as it
    likes.  [GetObject] returns both values of the Go call: the object (as
    the reader it is) and the error. *)
Class S3Env (E : Type) : Type := {
  time_Now : E -> Time;
  time_Sleep : Duration -> E -> E;
  minio_New : string -> string -> string -> E -> E * option error;
  BucketExists : string -> E -> E * (bool * option error);
  GetObject : string -> string -> E -> E * (Reader * option error);
  PutObject : string -> string -> bytes -> E -> E * option error;
  RemoveObject : string -> string -> E -> E * option error;
  StatObject : string -> string -> E -> E * (ObjectInfo * option error);
  ListObjects : string -> string -> bool -> E -> E * list ObjectInfo
}.

(** Functions of the Go standard library and of NaCl secretbox that the
    package calls.  [json_Unmarshal] receives the value it decodes into and
    returns it as the decoder left it. *)
Class GoLib : Type := {
  time_Format_RFC3339 : Time -> string;
  time_Parse_RFC3339 : string -> Time * option error;
  json_Marshal : KeyInfo -> bytes * option error;
  json_Unmarshal : bytes -> KeyInfo -> KeyInfo * option error;
  secretbox_seal : bytes -> bytes -> bytes;
  secretbox_open : bytes -> Reader -> Reader
}.

(** ** The [IO] interface and its two implementations *)

Inductive IO : Type :=
| CleartextIO
| SecretBoxIO (SecretKey : bytes).

(** Modelled from the spec: the file defining [IO], [CleartextIO] and
    [SecretBoxIO] is not among the sources.  Section 4.1: the cleartext
    variant is the identity transform; the authenticated variant seals
    with its key and its reader fails when authentication fails.  The
    cipher itself is a parameter ([GoLib]). *)
Definition ByteReader `{GoLib} (io : IO) (value : bytes) : bytes :=
  match io with
  | CleartextIO => value
  | SecretBoxIO k => secretbox_seal k value
  end.

(** Modelled from the spec: see [ByteReader]. *)
Definition WrapReader `{GoLib} (io : IO) (r : Reader) : Reader :=
  match io with
  | CleartextIO => r
  | SecretBoxIO k => secretbox_open k r
  end.

(** ** BadgerDB

    The library is modelled by what its transactions do on one key: a map
    from keys to entries; an entry carries the second at which it
    expires, as [Entry.WithTTL] stamps it: [uint64(now.Add(ttl).Unix())],
    zero meaning never.  [txn.Get] refuses the empty key and reports
    [ErrKeyNotFound] for a key that is missing or expired; [txn.SetEntry]
    refuses the keys and values that the library's [modify] refuses.
    Keys are kept as strings, [[]byte(key)] being a bijection. *)
Record Entry : Type := {
  Value : bytes;
  (** Unix seconds, as a [uint64]. *)
  ExpiresAt : Z
}.

Definition ErrKeyNotFound : error := libError "badger" "Key not found".
Definition ErrEmptyKey : error := libError "badger" "Key cannot be empty".
Definition ErrInvalidKey : error :=
  libError "badger" "Key is using a reserved !badger! prefix".
Definition exceedsSize (what : string) : error :=
  libError "badger" (what +:+ " exceeds the size limit").

Definition badgerPrefix : string := "!badger!".
Definition maxKeySize : Z := 65000.
(** [Options.ValueLogFileSize] of [badger.DefaultOptions]: [1<<30 - 1]. *)
Definition ValueLogFileSize : Z := 2 ^ 30 - 1.

(** [isDeletedOrExpired] for an entry that is not deleted. *)
Definition isExpired (expiresAt : Z) (now : Time) : bool :=
  if expiresAt =? 0 then false
  else expiresAt <=? uint64 (time.Unix now).

(** A read or write transaction sees the store and the current time. *)
Definition txn_Get (s : gmap string Entry) (now : Time) (key : string)
  : Entry + error :=
  if String.eqb key EmptyString then inr ErrEmptyKey
  else
    match s !! key with
    | Some e => if isExpired (ExpiresAt e) now then inr ErrKeyNotFound
                else inl e
    | None => inr ErrKeyNotFound
    end.

Definition NewEntry_WithTTL (now : Time) (data : bytes) (ttl : Duration)
  : Entry :=
  {| Value := data; ExpiresAt := uint64 (time.Unix (time.Add now ttl)) |}.

(** The checks of [txn.modify] on the key and the value of an entry. *)
Definition txn_modify_check (key : string) (value : bytes) : option error :=
  if String.eqb key EmptyString then Some ErrEmptyKey
  else if String.prefix badgerPrefix key then Some ErrInvalidKey
  else if maxKeySize <? Z.of_nat (String.length key) then
    Some (exceedsSize "Key")
  else if ValueLogFileSize <? Z.of_nat (length value) then
    Some (exceedsSize "Value")
  else None.

Definition txn_SetEntry (s : gmap string Entry) (key : string) (e : Entry)
  : gmap string Entry * option error :=
  match txn_modify_check key (Value e) with
  | Some err => (s, Some err)
  | None => (<[key := e]> s, None)
  end.

(** [badger.Open] returns a handle and an error.  What the transaction
    methods of the handle returned together with an error do is decided
    inside the library, so the handle records it: they either return an
    error without running the transaction, or they dereference the handle
    and panic. *)
Inductive FailedHandle : Type :=
| ReturnsError (e : error)
| NilDereference.

Inductive DB : Type :=
| Opened (s : gmap string Entry)
| OpenFailed (h : FailedHandle).

(** A library call either returns or panics. *)
Inductive Call (A : Type) : Type :=
| Done (a : A)
| Panicked.
Arguments Done {A} a.
Arguments Panicked {A}.

(** [db.View(fn)]: [fn] reads the store and may assign the variable it
    captured; the call returns the error of [fn]. *)
Definition db_View {A : Type} (d : DB) (now : Time)
    (fn : gmap string Entry -> Time -> A -> A * option error) (captured : A)
  : Call (A * option error) :=
  match d with
  | Opened s => Done (fn s now captured)
  | OpenFailed (ReturnsError e) => Done (captured, Some e)
  | OpenFailed NilDereference => Panicked
  end.

(** [db.Update(fn)]: the writes of [fn] are committed when it returns no
    error and dropped otherwise. *)
Definition db_Update (d : DB) (now : Time)
    (fn : gmap string Entry -> Time -> gmap string Entry * option error)
  : Call (DB * option error) :=
  match d with
  | Opened s =>
      match fn s now with
      | (s', None) => Done (Opened s', None)
      | (_, Some e) => Done (Opened s, Some e)
      end
  | OpenFailed (ReturnsError e) => Done (d, Some e)
  | OpenFailed NilDereference => Panicked
  end.

(** [getCacheDb]: the error of [badger.Open] is dropped and the handle is
    returned whatever it is. *)
Definition getCacheDb (opened : DB * option error) : DB :=
  let '(db, err) := opened in
  match err with
  | Some _ => db
  | None => db
  end.

(** [handleCacheError]: both branches do nothing. *)
Definition handleCacheError (err : option error) : unit :=
  match err with
  | Some _ => tt
  | None => tt
  end.

(** ** The process state and the monad of the package's functions *)

Inductive RemoteCall : Type :=
| CallBucketExists (bucket : string)
| CallGetObject (bucket name : string)
| CallPutObject (bucket name : string) (body : bytes)
| CallRemoveObject (bucket name : string)
| CallStatObject (bucket name : string)
| CallListObjects (bucket pfx : string) (recursive : bool).

(** [db] is the package variable of [cache.go]; [env] is the outside
    world; [calls] lists, oldest first, the requests sent to the remote
    store so far. *)
Record World (E : Type) : Type := {
  db : DB;
  env : E;
  calls : list RemoteCall
}.
Arguments Build_World {E} _ _ _.
Arguments db {E} _.
Arguments env {E} _.
Arguments calls {E} _.

(** A function returns a value in a new state, or panics, or - for the
    polling loop of [Lock], which is run with an iteration budget - is
    still running when the budget is used up, in the state it reached. *)
Inductive Outcome (E A : Type) : Type :=
| Returns (a : A) (w : World E)
| Panics
| Running (w : World E).
Arguments Returns {E A} a w.
Arguments Panics {E A}.
Arguments Running {E A} w.

Definition M (E A : Type) : Type := World E -> Outcome E A.

Definition ret {E A : Type} (a : A) : M E A := fun w => Returns a w.

Definition bind {E A B : Type} (m : M E A) (k : A -> M E B) : M E B :=
  fun w =>
    match m w with
    | Returns a w' => k a w'
    | Panics => Panics
    | Running w' => Running w'
    end.

Notation "'do' x <- m ; k" := (bind m (fun x => k))
  (at level 10, x name, m at level 100, k at level 200,
   format "'[v' 'do'  x  <-  m ; '/' k ']'").
Notation "'do' ' pat <- m ; k" :=
  (bind m (fun x => match x with pat => k end))
  (at level 10, pat pattern, m at level 100, k at level 200,
   format "'[v' 'do'  ' pat  <-  m ; '/' k ']'").
Notation "'run' m ; k" := (bind m (fun _ => k))
  (at level 10, m at level 100, k at level 200,
   format "'[v' 'run'  m ; '/' k ']'").

Record S3Opts : Type := {
  Endpoint : string;
  Bucket : string;
  AccessKeyID : string;
  SecretAccessKey : string;
  ObjPrefix : string;
  (** [None] is the nil slice. *)
  EncryptionKey : option bytes
}.

(** The client field [s3client] is the outside world itself. *)
Record S3Storage : Type := {
  prefix : string;
  bucket : string;
  iowrap : IO
}.

Definition LockExpiration : Duration := 2 * time.Minute.
Definition LockPollInterval : Duration := 1 * time.Second.
Definition LockTimeout : Duration := 15 * time.Second.

Definition objName (gs : S3Storage) (key : string) : string :=
  prefix gs +:+ "/" +:+ key.

Definition objLockName (gs : S3Storage) (key : string) : string :=
  objName gs key +:+ ".lock".

(** [len] of a slice that may be nil. *)
Definition len (b : option bytes) : Z :=
  match b with
  | Some l => Z.of_nat (length l)
  | None => 0
  end.

(** [copy(sb.SecretKey[:], src)] into the zeroed 32-byte array. *)
Definition copy32 (src : bytes) : bytes :=
  take 32 (src ++ replicate 32 x00)%list.

Section Package.
Context {E : Type} `{S3Env E} `{GoLib}.

(** *** Primitive effects *)

Definition Now : M E Time := fun w => Returns (time_Now (env w)) w.

Definition Sleep (d : Duration) : M E unit :=
  fun w => Returns tt (Build_World (db w) (time_Sleep d (env w)) (calls w)).

Definition remote {A : Type} (c : RemoteCall) (op : E -> E * A) : M E A :=
  fun w =>
    let '(e', a) := op (env w) in
    Returns a (Build_World (db w) e' (calls w ++ [c])).

Definition s3_New (endpoint id secret : string) : M E (option error) :=
  fun w =>
    let '(e', err) := minio_New endpoint id secret (env w) in
    Returns err (Build_World (db w) e' (calls w)).

Definition s3_BucketExists (b : string) : M E (bool * option error) :=
  remote (CallBucketExists b) (BucketExists b).
Definition s3_GetObject (b n : string) : M E (Reader * option error) :=
  remote (CallGetObject b n) (GetObject b n).
Definition s3_PutObject (b n : string) (r : bytes) : M E (option error) :=
  remote (CallPutObject b n r) (PutObject b n r).
Definition s3_RemoveObject (b n : string) : M E (option error) :=
  remote (CallRemoveObject b n) (RemoveObject b n).
Definition s3_StatObject (b n : string) : M E (ObjectInfo * option error) :=
  remote (CallStatObject b n) (StatObject b n).
Definition s3_ListObjects (b p : string) (r : bool) : M E (list ObjectInfo) :=
  remote (CallListObjects b p r) (ListObjects b p r).

(** *** cache.go *)

Definition setCacheEntry (key : string) (data : bytes) (ttl : Duration)
  : M E unit :=
  fun w =>
    match db_Update (db w) (time_Now (env w))
            (fun txn now =>
               let e := NewEntry_WithTTL now data ttl in
               let '(txn', err) := txn_SetEntry txn key e in
               let _ := handleCacheError err in
               (txn', err)) with
    | Done (d', err) =>
        let _ := handleCacheError err in
        Returns tt (Build_World d' (env w) (calls w))
    | Panicked => Panics
    end.

Definition getCacheEntry (key : string) : M E (option string) :=
  fun w =>
    match db_View (db w) (time_Now (env w))
            (fun txn now (valCopy : bytes) =>
               match txn_Get txn now key with
               | inl item => (([] ++ Value item)%list, None)
               | inr err => (valCopy, Some err)
               end) [] with
    | Done (valCopy, None) => Returns (Some (string_of_list_byte valCopy)) w
    | Done (_, Some _) => Returns None w
    | Panicked => Panics
    end.

Definition isCacheEntryExistent (key : string) : M E bool :=
  fun w =>
    match db_View (db w) (time_Now (env w))
            (fun txn now (u : unit) =>
               match txn_Get txn now key with
               | inl _ => (u, None)
               | inr err => (u, Some err)
               end) tt with
    | Done (_, None) => Returns true w
    | Done (_, Some _) => Returns false w
    | Panicked => Panics
    end.

(** *** The storage *)

(** [log.Println] is left out. *)
Definition NewS3Storage (opts : S3Opts)
  : M E (option S3Storage * option error) :=
  let connect (io : IO) : M E (option S3Storage * option error) :=
    let gs3 := {| prefix := ObjPrefix opts; bucket := Bucket opts;
                  iowrap := io |} in
    do err <- s3_New (Endpoint opts) (AccessKeyID opts) (SecretAccessKey opts);
    match err with
    | Some e => ret (None, Some e)
    | None =>
        do '(ok, err) <- s3_BucketExists (Bucket opts);
        match err with
        | Some e => ret (None, Some e)
        | None =>
            if negb ok then
              ret (None, Some (errorsNew
                     ("S3 bucket " +:+ Bucket opts +:+ " does not exist")))
            else ret (Some gs3, None)
        end
    end in
  if match EncryptionKey opts with None => true | Some _ => false end
     || (len (EncryptionKey opts) =? 0) then
    connect CleartextIO
  else if negb (len (EncryptionKey opts) =? 32) then
    ret (None, Some (errorsNew "encryption key must have exactly 32 bytes"))
  else
    connect (SecretBoxIO (copy32 (default [] (EncryptionKey opts)))).

Definition putLockFile (gs : S3Storage) (key : string) : M E (option error) :=
  do t <- Now;
  let r := list_byte_of_string (time_Format_RFC3339 t) in
  s3_PutObject (bucket gs) (objLockName gs key) r.

(** The [for] loop of [Lock]; one unit of [fuel] per iteration.  The
    [return] after the loop is unreachable. *)
Fixpoint Lock_loop (fuel : nat) (gs : S3Storage) (key : string)
    (startedAt : Time) : M E (option error) :=
  match fuel with
  | O => fun w => Running w
  | S fuel' =>
      do '(obj, err) <- s3_GetObject (bucket gs) (objLockName gs key);
      match err with
      | None => putLockFile gs key
      | Some _ =>
          let '(buf, err) := ioutil_ReadAll obj in
          match err with
          | Some _ => Lock_loop fuel' gs key startedAt
          | None =>
              let '(lt, err) := time_Parse_RFC3339 (string_of_list_byte buf) in
              match err with
              | Some _ => putLockFile gs key
              | None =>
                  do now1 <- Now;
                  if time.Before (time.Add lt LockTimeout) now1 then
                    putLockFile gs key
                  else
                    do now2 <- Now;
                    if time.Before (time.Add startedAt LockTimeout) now2 then
                      ret (Some (errorsNew "acquiring lock failed"))
                    else
                      run Sleep LockPollInterval;
                      Lock_loop fuel' gs key startedAt
              end
          end
      end
  end%nat.

Definition Lock (fuel : nat) (gs : S3Storage) (key : string)
  : M E (option error) :=
  do cached <- isCacheEntryExistent key;
  if cached then ret None
  else
    do startedAt <- Now;
    Lock_loop fuel gs key startedAt.

Definition Unlock (gs : S3Storage) (key : string) : M E (option error) :=
  do cached <- isCacheEntryExistent key;
  if cached then ret None
  else s3_RemoveObject (bucket gs) (objLockName gs key).

Definition Store (gs : S3Storage) (key : string) (value : bytes)
  : M E (option error) :=
  let r := ByteReader (iowrap gs) value in
  s3_PutObject (bucket gs) (objName gs key) r.

(** The part of [Load] after the cache lookup.  (The lone token on the
    line between the two parts of the source function is skipped.) *)
Definition Load_remote (gs : S3Storage) (key : string)
  : M E (bytes * option error) :=
  do '(r, err) <- s3_GetObject (bucket gs) (objName gs key);
  match err with
  | Some _ => ret ([], Some fsErrNotExist)
  | None =>
      let '(buf, err) := ioutil_ReadAll (WrapReader (iowrap gs) r) in
      match err with
      | Some _ => ret ([], Some fsErrNotExist)
      | None =>
          run setCacheEntry key buf (time.Hour * 1);
          ret (buf, None)
      end
  end.

Definition Load (gs : S3Storage) (key : string)
  : M E (bytes * option error) :=
  do cached <- isCacheEntryExistent key;
  if cached then
    do rawKi <- getCacheEntry key;
    match rawKi with
    | Some s => ret (list_byte_of_string s, None)
    | None => Load_remote gs key
    end
  else Load_remote gs key.

Definition Delete (gs : S3Storage) (key : string) : M E (option error) :=
  s3_RemoveObject (bucket gs) (objName gs key).

Definition Exists (gs : S3Storage) (key : string) : M E bool :=
  do '(_, err) <- s3_StatObject (bucket gs) (objName gs key);
  ret (match err with None => true | Some _ => false end).

Definition List (gs : S3Storage) (pfx : string) (recursive : bool)
  : M E (list string * option error) :=
  do objs <- s3_ListObjects (bucket gs) pfx recursive;
  ret (map oi_Key objs, None).

(** The part of [Stat] after the cache lookup; [ki] is the variable as
    the lookup left it. *)
Definition Stat_remote (gs : S3Storage) (key : string) (ki : KeyInfo)
  : M E (KeyInfo * option error) :=
  do '(oi, err) <- s3_StatObject (bucket gs) (objName gs key);
  match err with
  | Some e => ret (ki, Some e)
  | None =>
      let ki := {| Key := key; Modified := oi_LastModified oi;
                   Size := oi_Size oi; IsTerminal := true |} in
      let '(jsonKi, err) := json_Marshal ki in
      match err with
      | None =>
          run setCacheEntry (key +:+ "_ki") jsonKi (time.Hour * 1);
          ret (ki, None)
      | Some _ => ret (ki, None)
      end
  end.

Definition Stat (gs : S3Storage) (key : string)
  : M E (KeyInfo * option error) :=
  let ki := KeyInfo_zero in
  do cached <- isCacheEntryExistent (key +:+ "_ki");
  if cached then
    do rawKi <- getCacheEntry (key +:+ "_ki");
    match rawKi with
    | Some s =>
        let '(ki', err) := json_Unmarshal (list_byte_of_string s) ki in
        match err with
        | None => ret (ki', None)
        | Some _ => Stat_remote gs key ki'
        end
    | None => Stat_remote gs key ki
    end
  else Stat_remote gs key ki.

End Package.

(** ** A concrete world

    An in-memory remote store with a clock, and simple implementations of
    the library functions.  They serve to run the package on concrete
    inputs; the general results below do not depend on them. *)

Module rfc3339.
(** Timestamps in UTC and whole seconds, [2006-01-02T15:04:05Z]: what
    [Format] writes for a time in UTC.  [Parse] reads that form only
    (no offsets, no fractional seconds). *)

Definition days_from_civil (y m d : Z) : Z :=
  let y := if m <=? 2 then y - 1 else y in
  let era := y / 400 in
  let yoe := y - era * 400 in
  let mp := if 2 <? m then m - 3 else m + 9 in
  let doy := (153 * mp + 2) / 5 + d - 1 in
  let doe := yoe * 365 + yoe / 4 - yoe / 100 + doy in
  era * 146097 + doe - 719468.

Definition civil_from_days (z : Z) : Z * Z * Z :=
  let z := z + 719468 in
  let era := z / 146097 in
  let doe := z - era * 146097 in
  let yoe := (doe - doe / 1460 + doe / 36524 - doe / 146096) / 365 in
  let doy := doe - (365 * yoe + yoe / 4 - yoe / 100) in
  let mp := (5 * doy + 2) / 153 in
  let d := doy - (153 * mp + 2) / 5 + 1 in
  let m := if mp <? 10 then mp + 3 else mp - 9 in
  (if m <=? 2 then yoe + era * 400 + 1 else yoe + era * 400, m, d).

Definition digit (n : Z) : ascii := ascii_of_N (48 + Z.to_N (n mod 10)).

Definition two (n : Z) : string :=
  String (digit (n / 10)) (String (digit n) EmptyString).

Definition four (n : Z) : string := two (n / 100) +:+ two n.

Definition Format (t : Time) : string :=
  let secs := t / time.Second in
  let '(y, m, d) := civil_from_days (secs / 86400) in
  let r := secs mod 86400 in
  four y +:+ "-" +:+ two m +:+ "-" +:+ two d +:+ "T" +:+
  two (r / 3600) +:+ ":" +:+ two (r mod 3600 / 60) +:+ ":" +:+
  two (r mod 60) +:+ "Z".

Definition digit_val (c : ascii) : option Z :=
  let n := Z.of_N (N_of_ascii c) in
  if (48 <=? n) && (n <=? 57) then Some (n - 48) else None.

Fixpoint number (s : list ascii) (acc : Z) : option Z :=
  match s with
  | [] => Some acc
  | c :: s' =>
      match digit_val c with
      | Some d => number s' (10 * acc + d)
      | None => None
      end
  end.

Definition bad : error := libError "time" "cannot parse".

Definition days_in (y m : Z) : Z :=
  if m =? 2 then
    if ((y mod 4 =? 0) && negb (y mod 100 =? 0)) || (y mod 400 =? 0)
    then 29 else 28
  else if (m =? 4) || (m =? 6) || (m =? 9) || (m =? 11) then 30
  else 31.

Definition Parse (s : string) : Time * option error :=
  match list_ascii_of_string s with
  | [y1; y2; y3; y4; "-"; m1; m2; "-"; d1; d2; "T";
     h1; h2; ":"; i1; i2; ":"; s1; s2; "Z"]%char =>
      match number [y1; y2; y3; y4] 0, number [m1; m2] 0, number [d1; d2] 0,
            number [h1; h2] 0, number [i1; i2] 0, number [s1; s2] 0 with
      | Some y, Some m, Some d, Some h, Some i, Some sec =>
          if (1 <=? m) && (m <=? 12) && (1 <=? d) && (d <=? days_in y m)
             && (h <? 24) && (i <? 60) && (sec <? 60) then
            ((days_from_civil y m d * 86400 + h * 3600 + i * 60 + sec)
             * time.Second, None)
          else (0, Some bad)
      | _, _, _, _, _, _ => (0, Some bad)
      end
  | _ => (0, Some bad)
  end.
End rfc3339.

Module json.
(** [encoding/json] on [KeyInfo], for the values used below: a key that
    needs no escaping and a modification time in whole seconds.
    [Unmarshal] reads the text [Marshal] writes and nothing else. *)

Fixpoint strip (p s : string) : option string :=
  match p with
  | EmptyString => Some s
  | String a p' =>
      match s with
      | String b s' => if Ascii.eqb a b then strip p' s' else None
      | EmptyString => None
      end
  end.

Fixpoint until (c : ascii) (s : string) : option (string * string) :=
  match s with
  | EmptyString => None
  | String a s' =>
      if Ascii.eqb a c then Some (EmptyString, s')
      else match until c s' with
           | Some (x, rest) => Some (String a x, rest)
           | None => None
           end
  end.

Definition quote : ascii := ascii_of_N 34.
Definition q (s : string) : string :=
  String quote s +:+ String quote EmptyString.

Definition Marshal (ki : KeyInfo) : bytes * option error :=
  (list_byte_of_string
     ("{" +:+ q "Key" +:+ ":" +:+ q (Key ki) +:+ "," +:+
      q "Modified" +:+ ":" +:+ q (rfc3339.Format (Modified ki)) +:+ "," +:+
      q "Size" +:+ ":" +:+ pretty (Size ki) +:+ "," +:+
      q "IsTerminal" +:+ ":" +:+
      (if IsTerminal ki then "true" else "false") +:+ "}"), None).

Definition bad : error := libError "json" "invalid input".

Definition Unmarshal (data : bytes) (ki : KeyInfo) : KeyInfo * option error :=
  let parsed :=
    s ← strip ("{" +:+ q "Key" +:+ ":" +:+ String quote EmptyString)
          (string_of_list_byte data);
    '(k, s) ← until quote s;
    s ← strip ("," +:+ q "Modified" +:+ ":" +:+ String quote EmptyString) s;
    '(m, s) ← until quote s;
    s ← strip ("," +:+ q "Size" +:+ ":") s;
    '(n, s) ← until ","%char s;
    n ← rfc3339.number (list_ascii_of_string n) 0;
    s ← strip (q "IsTerminal" +:+ ":") s;
    t ← (if String.eqb s "true}" then Some true
         else if String.eqb s "false}" then Some false else None);
    match rfc3339.Parse m with
    | (m, None) =>
        Some {| Key := k; Modified := m; Size := n; IsTerminal := t |}
    | (_, Some _) => None
    end in
  match parsed with
  | Some ki' => (ki', None)
  | None => (ki, Some bad)
  end.
End json.

Module secretbox.
(** A stand-in for the authenticated cipher: the sealed form is the
    payload behind the key; opening checks the key. *)
Fixpoint strip (k b : bytes) : option bytes :=
  match k with
  | [] => Some b
  | x :: k' =>
      match b with
      | y :: b' => if Byte.eqb x y then strip k' b' else None
      | [] => None
      end
  end.

Definition seal (k : bytes) (value : bytes) : bytes := (k ++ value)%list.

Definition open (k : bytes) (r : Reader) : Reader :=
  match r with
  | (b, None) =>
      match strip k b with
      | Some p => (p, None)
      | None => ([], Some (libError "secretbox" "authentication failed"))
      end
  | (_, Some e) => ([], Some e)
  end.
End secretbox.

#[global] Instance SampleLib : GoLib := {|
  time_Format_RFC3339 := rfc3339.Format;
  time_Parse_RFC3339 := rfc3339.Parse;
  json_Marshal := json.Marshal;
  json_Unmarshal := json.Unmarshal;
  secretbox_seal := secretbox.seal;
  secretbox_open := secretbox.open
|}.

Module MemStore.
(** Objects by bucket and name, each with its body and modification
    time; every request takes [latency].  As with the minio client,
    [GetObject] checks the names and nothing else: for a name it refuses
    it returns a nil object and an error, otherwise it returns an object
    and no error, and a missing object shows when the object is read. *)
Record t : Type := {
  buckets : list string;
  objects : gmap (string * string) (bytes * Time);
  clock : Time;
  latency : Duration
}.

Definition tick (m : t) : t :=
  {| buckets := buckets m; objects := objects m;
     clock := clock m + latency m; latency := latency m |}.

Definition with_objects (o : gmap (string * string) (bytes * Time)) (m : t)
  : t :=
  {| buckets := buckets m; objects := o; clock := clock m;
     latency := latency m |}.

Definition NoSuchKey : error := libError "minio" "NoSuchKey".
Definition NilObject : error := libError "minio" "Object is nil".
Definition InvalidName (what : string) : error :=
  libError "minio" (what +:+ " name is not valid").

Definition is_space (c : ascii) : bool :=
  let n := N_of_ascii c in
  ((9 <=? n) && (n <=? 13) || (n =? 32))%N.

Definition blank (s : string) : bool :=
  forallb is_space (list_ascii_of_string s).

Definition cont (b : N) : bool := ((128 <=? b) && (b <=? 191))%N.

(** [utf8.ValidString] on the bytes of a name. *)
Fixpoint utf8_valid (l : list N) : bool :=
  match l with
  | [] => true
  | b :: r =>
      if (b <? 128)%N then utf8_valid r
      else if ((194 <=? b) && (b <=? 223))%N then
        match r with
        | c1 :: r1 => cont c1 && utf8_valid r1
        | _ => false
        end
      else if ((224 <=? b) && (b <=? 239))%N then
        match r with
        | c1 :: c2 :: r2 =>
            cont c1 && cont c2
            && (if (b =? 224)%N then (160 <=? c1)%N else true)
            && (if (b =? 237)%N then (c1 <=? 159)%N else true)
            && utf8_valid r2
        | _ => false
        end
      else if ((240 <=? b) && (b <=? 244))%N then
        match r with
        | c1 :: c2 :: c3 :: r3 =>
            cont c1 && cont c2 && cont c3
            && (if (b =? 240)%N then (144 <=? c1)%N else true)
            && (if (b =? 244)%N then (c1 <=? 143)%N else true)
            && utf8_valid r3
        | _ => false
        end
      else false
  end.

(** The checks of the client on the names of a request (the bucket name
    by its length only). *)
Definition check_names (b n : string) : option error :=
  if blank b || (String.length b <? 3)%nat || (63 <? String.length b)%nat
  then Some (InvalidName "Bucket")
  else if blank n || (1024 <? String.length n)%nat
          || negb (utf8_valid (map N_of_ascii (list_ascii_of_string n)))
  then Some (InvalidName "Object")
  else None.

Definition get (b n : string) (m : t) : t * (Reader * option error) :=
  match check_names b n with
  | Some e => (m, (([], Some NilObject), Some e))
  | None =>
      match objects m !! (b, n) with
      | Some (body, _) => (tick m, ((body, None), None))
      | None => (tick m, (([], Some NoSuchKey), None))
      end
  end.

Definition put (b n : string) (body : bytes) (m : t) : t * option error :=
  match check_names b n with
  | Some e => (m, Some e)
  | None =>
      (tick (with_objects (<[(b, n) := (body, clock m)]> (objects m)) m),
       None)
  end.

Definition remove (b n : string) (m : t) : t * option error :=
  match check_names b n with
  | Some e => (m, Some e)
  | None => (tick (with_objects (delete (b, n) (objects m)) m), None)
  end.

Definition no_info : ObjectInfo :=
  {| oi_Key := EmptyString; oi_Size := 0; oi_LastModified := 0 |}.

Definition stat (b n : string) (m : t) : t * (ObjectInfo * option error) :=
  match check_names b n with
  | Some e => (m, (no_info, Some e))
  | None =>
      match objects m !! (b, n) with
      | Some (body, mt) =>
          (tick m, ({| oi_Key := n; oi_Size := Z.of_nat (length body);
                       oi_LastModified := mt |}, None))
      | None => (tick m, (no_info, Some NoSuchKey))
      end
  end.

Definition list (b p : string) (recursive : bool) (m : t)
  : t * list ObjectInfo :=
  (tick m,
   omap (fun '((b', n), (body, mt)) =>
           if String.eqb b b' && String.prefix p n then
             Some {| oi_Key := n; oi_Size := Z.of_nat (length body);
                     oi_LastModified := mt |}
           else None)
        (map_to_list (objects m))).

Definition bucket_exists (b : string) (m : t) : t * (bool * option error) :=
  (tick m, (existsb (String.eqb b) (buckets m), None)).

Definition sleep (d : Duration) (m : t) : t :=
  {| buckets := buckets m; objects := objects m; clock := clock m + d;
     latency := latency m |}.
End MemStore.

#[global] Instance MemStore_S3Env : S3Env MemStore.t := {|
  time_Now := MemStore.clock;
  time_Sleep := MemStore.sleep;
  minio_New := fun _ _ _ m => (m, None);
  BucketExists := MemStore.bucket_exists;
  GetObject := MemStore.get;
  PutObject := MemStore.put;
  RemoveObject := MemStore.remove;
  StatObject := MemStore.stat;
  ListObjects := MemStore.list
|}.

Module Sample.
Definition opts : S3Opts :=
  {| Endpoint := "s3.example.com"; Bucket := "certs";
     AccessKeyID := "id"; SecretAccessKey := "secret";
     ObjPrefix := "acme"; EncryptionKey := None |}.

Definition gs : S3Storage :=
  {| prefix := "acme"; bucket := "certs"; iowrap := CleartextIO |}.

(** 14 November 2023, 22:13:20 UTC. *)
Definition t0 : Time := 1700000000 * time.Second.

(** An entry written at [t0] with a TTL of one hour. *)
Definition cached (data : bytes) : Entry :=
  {| Value := data; ExpiresAt := 1700000000 + 3600 |}.

(** A key whose sentinel name is longer than the client accepts. *)
Definition long_key : string := string_of_list_ascii (repeat "a"%char 1100).

Definition remote (o : gmap (string * string) (bytes * Time))
    (lat : Duration) : MemStore.t :=
  {| MemStore.buckets := ["certs"]; MemStore.objects := o;
     MemStore.clock := t0; MemStore.latency := lat |}.

Definition world (d : DB) (o : gmap (string * string) (bytes * Time))
    (lat : Duration) : World MemStore.t :=
  Build_World d (remote o lat) [].

Definition body (s : string) : bytes := list_byte_of_string s.
End Sample.

(** The value a call returned, if it returned. *)
Definition returned {E A : Type} (o : Outcome E A) : option A :=
  match o with
  | Returns a _ => Some a
  | Panics => None
  | Running _ => None
  end.

(** * Results *)

Section Results.
Context {E : Type} `{S3Env E} `{GoLib}.
Implicit Types (w : World E) (gs : S3Storage) (key : string).
Implicit Types (s : gmap string Entry) (fuel : nat).

(** ** Running the monad *)

Lemma bind_Returns {A B : Type} (m : M E A) (k : A -> M E B) w a w' :
  m w = Returns a w' -> bind m k w = k a w'.
Proof. intros Hm. unfold bind. now rewrite Hm. Qed.

Lemma bind_Panics {A B : Type} (m : M E A) (k : A -> M E B) w :
  m w = Panics -> bind m k w = Panics.
Proof. intros Hm. unfold bind. now rewrite Hm. Qed.

Lemma bind_Running {A B : Type} (m : M E A) (k : A -> M E B) w w' :
  m w = Running w' -> bind m k w = Running w'.
Proof. intros Hm. unfold bind. now rewrite Hm. Qed.

Lemma remote_Returns {A : Type} (c : RemoteCall) (op : E -> E * A) w e' a :
  op (env w) = (e', a) ->
  remote c op w = Returns a (Build_World (db w) e' (calls w ++ [c])).
Proof. intros Hop. unfold remote. now rewrite Hop. Qed.

(** Run the first call of a sequence with the equation that gives its
    result. *)
Ltac step Hcall := rewrite (bind_Returns _ _ _ _ _ Hcall).

Ltac step_remote Hop :=
  rewrite (bind_Returns _ _ _ _ _ (remote_Returns _ _ _ _ _ Hop)).

(** ** The cache on an opened database *)

Lemma Unix_nonneg (t : Time) : 0 <= t -> 0 <= time.Unix t.
Proof.
  intros Ht. unfold time.Unix, time.Second. apply Z.div_pos; lia.
Qed.

Lemma Unix_mono (t u : Time) : t <= u -> time.Unix t <= time.Unix u.
Proof.
  intros Hle. unfold time.Unix, time.Second. apply Z.div_le_mono; lia.
Qed.

Lemma uint64_nonneg (x : Z) : 0 <= x -> uint64 x = x.
Proof.
  intros Hx. unfold uint64.
  destruct (x <? 0) eqn:Hneg; [apply Z.ltb_lt in Hneg; lia|reflexivity].
Qed.

Lemma txn_modify_check_key key (value : bytes) :
  txn_modify_check key value = None -> String.eqb key EmptyString = false.
Proof.
  unfold txn_modify_check.
  destruct (String.eqb key EmptyString); [discriminate|reflexivity].
Qed.

(** An entry stamped at [t] with [ttl] is live while the Unix second of
    the clock is before the Unix second of [t + ttl], and expired from
    that second on (the clock being at or after the epoch). *)
Lemma isExpired_before (t : Time) (ttl : Duration) (now : Time) :
  0 <= now -> time.Unix now < time.Unix (t + ttl) ->
  isExpired (uint64 (time.Unix (t + ttl))) now = false.
Proof.
  intros Hnow Hlt. pose proof (Unix_nonneg now Hnow) as Hu.
  unfold isExpired. rewrite (uint64_nonneg (time.Unix now) Hu).
  rewrite (uint64_nonneg (time.Unix (t + ttl))) by lia.
  destruct (time.Unix (t + ttl) =? 0); [reflexivity|].
  apply Z.leb_gt. exact Hlt.
Qed.

Lemma isExpired_from (t : Time) (ttl : Duration) (now : Time) :
  0 < time.Unix (t + ttl) -> time.Unix (t + ttl) <= time.Unix now ->
  isExpired (uint64 (time.Unix (t + ttl))) now = true.
Proof.
  intros Hpos Hle. unfold isExpired.
  rewrite (uint64_nonneg (time.Unix now)) by lia.
  rewrite (uint64_nonneg (time.Unix (t + ttl))) by lia.
  destruct (time.Unix (t + ttl) =? 0) eqn:Hz; [apply Z.eqb_eq in Hz; lia|].
  apply Z.leb_le. exact Hle.
Qed.

Lemma txn_Get_inl s now key e :
  txn_Get s now key = inl e ->
  s !! key = Some e /\ isExpired (ExpiresAt e) now = false.
Proof.
  unfold txn_Get. destruct (String.eqb key EmptyString); [discriminate|].
  destruct (s !! key) as [e'|]; [|discriminate].
  destruct (isExpired (ExpiresAt e') now) eqn:Hexp; [discriminate|].
  intros [= ->]. split; [reflexivity|exact Hexp].
Qed.

Lemma txn_Get_live s now key e :
  String.eqb key EmptyString = false ->
  s !! key = Some e -> isExpired (ExpiresAt e) now = false ->
  txn_Get s now key = inl e.
Proof.
  intros Hkey Hs Hlive. unfold txn_Get. now rewrite Hkey, Hs, Hlive.
Qed.

Lemma txn_Get_expired s now key e :
  s !! key = Some e -> isExpired (ExpiresAt e) now = true ->
  exists err, txn_Get s now key = inr err.
Proof.
  intros Hs Hdead. unfold txn_Get.
  destruct (String.eqb key EmptyString); [now eexists|].
  rewrite Hs, Hdead. now eexists.
Qed.

Lemma isCacheEntryExistent_hit key w s e :
  db w = Opened s -> txn_Get s (time_Now (env w)) key = inl e ->
  isCacheEntryExistent key w = Returns true w.
Proof.
  intros Hdb Hget. unfold isCacheEntryExistent. rewrite Hdb. simpl.
  now rewrite Hget.
Qed.

Lemma isCacheEntryExistent_miss key w s err :
  db w = Opened s -> txn_Get s (time_Now (env w)) key = inr err ->
  isCacheEntryExistent key w = Returns false w.
Proof.
  intros Hdb Hget. unfold isCacheEntryExistent. rewrite Hdb. simpl.
  now rewrite Hget.
Qed.

Lemma getCacheEntry_hit key w s e :
  db w = Opened s -> txn_Get s (time_Now (env w)) key = inl e ->
  getCacheEntry key w = Returns (Some (string_of_list_byte (Value e))) w.
Proof.
  intros Hdb Hget. unfold getCacheEntry. rewrite Hdb. simpl.
  now rewrite Hget.
Qed.

Lemma setCacheEntry_Opened key data ttl w s :
  db w = Opened s ->
  setCacheEntry key data ttl w =
  Returns tt
    (Build_World
       (Opened
          match txn_modify_check key data with
          | None => <[key := NewEntry_WithTTL (time_Now (env w)) data ttl]> s
          | Some _ => s
          end)
       (env w) (calls w)).
Proof.
  intros Hdb. unfold setCacheEntry. rewrite Hdb.
  unfold db_Update, txn_SetEntry. cbn [Value NewEntry_WithTTL].
  now destruct (txn_modify_check key data).
Qed.

(** A cache hit of [Load]: the cached bytes come back as stored and the
    state is the one before the call. *)
Lemma Load_hit gs key w s e :
  db w = Opened s -> txn_Get s (time_Now (env w)) key = inl e ->
  Load gs key w = Returns (Value e, None) w.
Proof.
  intros Hdb Hget. unfold Load.
  step (isCacheEntryExistent_hit _ _ _ _ Hdb Hget).
  step (getCacheEntry_hit _ _ _ _ Hdb Hget).
  unfold ret. now rewrite list_byte_of_string_of_list_byte.
Qed.

Lemma Load_miss gs key w s err :
  db w = Opened s -> txn_Get s (time_Now (env w)) key = inr err ->
  Load gs key w = Load_remote gs key w.
Proof.
  intros Hdb Hget. unfold Load.
  now step (isCacheEntryExistent_miss _ _ _ _ Hdb Hget).
Qed.

(** An entry whose expiry has been reached no longer answers: [Load] goes
    to the remote store. *)
Lemma Load_after_expiry gs key w s e :
  db w = Opened s -> s !! key = Some e ->
  isExpired (ExpiresAt e) (time_Now (env w)) = true ->
  Load gs key w = Load_remote gs key w.
Proof.
  intros Hdb Hs Hexp.
  destruct (txn_Get_expired _ _ _ _ Hs Hexp) as [err Hget].
  exact (Load_miss _ _ _ _ _ Hdb Hget).
Qed.

(** With [CleartextIO] both directions of the transform are the
    identity. *)
Lemma CleartextIO_identity (value : bytes) (r : Reader) :
  ByteReader CleartextIO value = value /\ WrapReader CleartextIO r = r.
Proof. split; reflexivity. Qed.

(** ** Lock and Unlock on a cached key *)

Lemma Lock_hit fuel gs key w s e :
  db w = Opened s -> txn_Get s (time_Now (env w)) key = inl e ->
  Lock fuel gs key w = Returns None w.
Proof.
  intros Hdb Hget. unfold Lock.
  now step (isCacheEntryExistent_hit _ _ _ _ Hdb Hget).
Qed.

Lemma Unlock_hit gs key w s e :
  db w = Opened s -> txn_Get s (time_Now (env w)) key = inl e ->
  Unlock gs key w = Returns None w.
Proof.
  intros Hdb Hget. unfold Unlock.
  now step (isCacheEntryExistent_hit _ _ _ _ Hdb Hget).
Qed.

(** C4.  When the cache holds a live entry for [key], [Lock] and [Unlock]
    both return [nil] at once; the state after the call is the state
    before it, so the log of remote requests has not grown: no sentinel
    was read, written or deleted. *)
Theorem Lock_Unlock_cached_key gs key w s e fuel :
  db w = Opened s ->
  txn_Get s (time_Now (env w)) key = inl e ->
  Lock fuel gs key w = Returns None w /\
  Unlock gs key w = Returns None w.
Proof.
  intros Hdb Hget. split.
  - exact (Lock_hit fuel gs key w s e Hdb Hget).
  - exact (Unlock_hit gs key w s e Hdb Hget).
Qed.

(** ** Load *)

(** C5.  On a cache miss, when [GetObject] returns an error, or returns
    an object whose (unwrapped, i.e. decrypted) read fails, [Load]
    returns [fs.ErrNotExist] in both cases alike, and the database is the
    one it was before: no entry was written. *)
Theorem Load_failure_NotFound gs key w s err e1 r gerr :
  db w = Opened s ->
  txn_Get s (time_Now (env w)) key = inr err ->
  GetObject (bucket gs) (objName gs key) (env w) = (e1, (r, gerr)) ->
  gerr <> None \/ snd (ioutil_ReadAll (WrapReader (iowrap gs) r)) <> None ->
  Load gs key w =
  Returns ([], Some fsErrNotExist)
    (Build_World (db w) e1
       (calls w ++ [CallGetObject (bucket gs) (objName gs key)])).
Proof.
  intros Hdb Hget Hobj Hfail.
  rewrite (Load_miss _ _ _ _ _ Hdb Hget). unfold Load_remote, s3_GetObject.
  step_remote Hobj.
  destruct gerr as [ge|]; [reflexivity|].
  destruct Hfail as [Hfail|Hfail]; [congruence|].
  destruct (ioutil_ReadAll (WrapReader (iowrap gs) r)) as [buf [re|]];
    [reflexivity|]. now elim Hfail.
Qed.

(** C6, as amended.  [Load] looks in the cache first.  On a hit it
    returns the cached bytes as they are and touches nothing.  On a miss
    it sends one [GetObject], reads the object through the transform of
    the storage and returns the plaintext.  It hands the plaintext to the
    cache with a TTL of one hour: the entry is stored when the cache
    accepts the key and the value (a key that is not empty, does not start
    with [!badger!] and is at most 65000 bytes long; a value of less than
    1 GiB), and nothing is stored otherwise.  A stored entry expires at
    the Unix second of the time of the read plus one hour: with the clock
    at or after the epoch, every [Load] of the key on that database
    before that second is answered from the cache. *)
Theorem Load_read_through gs key w s :
  db w = Opened s ->
  (forall e, txn_Get s (time_Now (env w)) key = inl e ->
     Load gs key w = Returns (Value e, None) w) /\
  (forall err e1 r buf,
     txn_Get s (time_Now (env w)) key = inr err ->
     GetObject (bucket gs) (objName gs key) (env w) = (e1, (r, None)) ->
     ioutil_ReadAll (WrapReader (iowrap gs) r) = (buf, None) ->
     let stored :=
       {| Value := buf;
          ExpiresAt := uint64 (time.Unix (time_Now e1 + time.Hour)) |} in
     let s' := match txn_modify_check key buf with
               | None => <[key := stored]> s
               | Some _ => s
               end in
     Load gs key w =
     Returns (buf, None)
       (Build_World (Opened s') e1
          (calls w ++ [CallGetObject (bucket gs) (objName gs key)])) /\
     (txn_modify_check key buf = None ->
      forall gs' w2,
        db w2 = Opened s' ->
        0 <= time_Now (env w2) ->
        time.Unix (time_Now (env w2)) < time.Unix (time_Now e1 + time.Hour) ->
        Load gs' key w2 = Returns (buf, None) w2)).
Proof.
  intros Hdb. split.
  - intros e Hget. exact (Load_hit _ _ _ _ _ Hdb Hget).
  - intros err e1 r buf Hget Hobj Hread stored s'. split.
    + rewrite (Load_miss _ _ _ _ _ Hdb Hget).
      unfold Load_remote, s3_GetObject.
      step_remote Hobj.
      rewrite Hread.
      erewrite bind_Returns by (apply setCacheEntry_Opened; exact Hdb).
      reflexivity.
    + intros Hok gs' w2 Hdb2 Hnow Hlive. subst s'. rewrite Hok in Hdb2.
      apply (Load_hit gs' key w2 _ stored Hdb2).
      apply txn_Get_live;
        [exact (txn_modify_check_key _ _ Hok)|apply lookup_insert_eq|].
      exact (isExpired_before _ _ _ Hnow Hlive).
Qed.

(** ** Store *)

(** C7.  [Store] sends one [PutObject] with the wrapped value under the
    object name of the key and returns its error; the database of the
    cache is untouched.  Hence, if the cache held a live entry for the
    key that is still live after the call, the next [Load] returns that
    old entry and not the value just stored. *)
Theorem Store_leaves_cache gs key value w e1 perr :
  PutObject (bucket gs) (objName gs key) (ByteReader (iowrap gs) value)
    (env w) = (e1, perr) ->
  let w' := Build_World (db w) e1
              (calls w ++ [CallPutObject (bucket gs) (objName gs key)
                             (ByteReader (iowrap gs) value)]) in
  Store gs key value w = Returns perr w' /\
  forall s e,
    db w = Opened s ->
    txn_Get s (time_Now e1) key = inl e ->
    Load gs key w' = Returns (Value e, None) w'.
Proof.
  intros Hput w'. split.
  - unfold Store, s3_PutObject. exact (remote_Returns _ _ _ _ _ Hput).
  - intros s e Hdb Hget. now apply (Load_hit gs key w' s e).
Qed.

(** ** Construction *)

(** C9.  A key that is present, not empty and not 32 bytes long makes
    [NewS3Storage] fail with the key-length error before anything else
    happens.  With a nil or empty key every storage [NewS3Storage]
    returns uses [CleartextIO], and it does return one as soon as the
    client can be built and the bucket exists. *)
Theorem NewS3Storage_encryption_key opts w :
  (forall k, EncryptionKey opts = Some k ->
     length k <> 0%nat -> length k <> 32%nat ->
     NewS3Storage opts w =
     Returns (None,
              Some (errorsNew "encryption key must have exactly 32 bytes"))
       w) /\
  (EncryptionKey opts = None \/ EncryptionKey opts = Some [] ->
     (forall gs err w',
        NewS3Storage opts w = Returns (Some gs, err) w' ->
        iowrap gs = CleartextIO) /\
     (forall e1 e2,
        minio_New (Endpoint opts) (AccessKeyID opts) (SecretAccessKey opts)
          (env w) = (e1, None) ->
        BucketExists (Bucket opts) e1 = (e2, (true, None)) ->
        NewS3Storage opts w =
        Returns (Some {| prefix := ObjPrefix opts; bucket := Bucket opts;
                         iowrap := CleartextIO |}, None)
          (Build_World (db w) e2
             (calls w ++ [CallBucketExists (Bucket opts)])))).
Proof.
  split.
  - intros k Hk Hlen0 Hlen32. unfold NewS3Storage. rewrite Hk. simpl.
    destruct (Z.of_nat (length k) =? 0) eqn:E0; [apply Z.eqb_eq in E0; lia|].
    destruct (Z.of_nat (length k) =? 32) eqn:E32;
      [apply Z.eqb_eq in E32; lia|].
    reflexivity.
  - intros Hnil.
    assert (Hsel :
      (match EncryptionKey opts with None => true | Some _ => false end
       || (len (EncryptionKey opts) =? 0)) = true)
      by (destruct Hnil as [-> | ->]; reflexivity).
    unfold NewS3Storage. rewrite Hsel. clear Hsel. split.
    + intros gs err w'. unfold bind, s3_New, s3_BucketExists, remote, ret.
      destruct (minio_New _ _ _ (env w)) as [e1 [ce|]]; [discriminate|].
      simpl. destruct (BucketExists (Bucket opts) e1) as [e2 [ok [be|]]];
        [discriminate|].
      destruct ok; simpl; [|discriminate].
      intros [= <- _ _]. reflexivity.
    + intros e1 e2 Hnew Hbucket.
      unfold bind, s3_New, s3_BucketExists, remote, ret.
      rewrite Hnew. simpl. rewrite Hbucket. reflexivity.
Qed.

(** ** The polling loop of Lock *)

Lemma Lock_miss fuel gs key w s err :
  db w = Opened s -> txn_Get s (time_Now (env w)) key = inr err ->
  Lock fuel gs key w = Lock_loop fuel gs key (time_Now (env w)) w.
Proof.
  intros Hdb Hget. unfold Lock.
  now step (isCacheEntryExistent_miss _ _ _ _ Hdb Hget).
Qed.

Lemma putLockFile_Returns gs key w e2 perr :
  PutObject (bucket gs) (objLockName gs key)
    (list_byte_of_string (time_Format_RFC3339 (time_Now (env w))))
    (env w) = (e2, perr) ->
  putLockFile gs key w =
  Returns perr
    (Build_World (db w) e2
       (calls w ++ [CallPutObject (bucket gs) (objLockName gs key)
                      (list_byte_of_string
                         (time_Format_RFC3339 (time_Now (env w))))])).
Proof.
  intros Hput. unfold putLockFile, bind, Now, s3_PutObject.
  exact (remote_Returns _ _ _ _ _ Hput).
Qed.

(** The retry branch: while [GetObject] answers with an error and an
    object that cannot be read, an iteration only sends the request. *)
Lemma Lock_loop_spins (P : E -> Prop) gs key :
  (forall e, P e ->
     exists e' buf rerr gerr,
       GetObject (bucket gs) (objLockName gs key) e
       = (e', ((buf, Some rerr), Some gerr)) /\ P e') ->
  forall fuel startedAt w,
    P (env w) ->
    exists w',
      Lock_loop fuel gs key startedAt w = Running w' /\
      db w' = db w /\ P (env w') /\
      calls w' =
      (calls w ++
       repeat (CallGetObject (bucket gs) (objLockName gs key)) fuel)%list.
Proof.
  intros Hdown fuel startedAt.
  induction fuel as [|fuel IH]; intros w HP.
  - exists w. simpl. rewrite app_nil_r. auto.
  - destruct (Hdown _ HP) as (e' & buf & rerr & gerr & Hobj & HP').
    cbn [Lock_loop]. unfold s3_GetObject.
    step_remote Hobj.
    cbn [ioutil_ReadAll].
    destruct (IH (Build_World (db w) e'
                    (calls w ++ [CallGetObject (bucket gs) (objLockName gs key)]))
                 HP') as (w' & Hrun & Hdb & HP'' & Hcalls).
    exists w'. repeat split; try assumption.
    rewrite Hcalls. cbn [calls repeat]. now rewrite <- app_assoc.
Qed.

(** C2, at the inputs on which it fails.  Take a key that is not cached
    and a remote store that, from the current state on, answers
    [GetObject] on the sentinel with an error and an unreadable object.
    [Lock] then is still running after any number of iterations: the
    retry branch neither sleeps nor compares the clock with the
    deadline, so no amount of elapsed time makes it return. *)
Theorem Lock_retry_ignores_deadline (P : E -> Prop) gs key w s err :
  db w = Opened s ->
  txn_Get s (time_Now (env w)) key = inr err ->
  P (env w) ->
  (forall e, P e ->
     exists e' buf rerr gerr,
       GetObject (bucket gs) (objLockName gs key) e
       = (e', ((buf, Some rerr), Some gerr)) /\ P e') ->
  forall fuel,
    exists w',
      Lock fuel gs key w = Running w' /\
      calls w' =
      (calls w ++
       repeat (CallGetObject (bucket gs) (objLockName gs key)) fuel)%list.
Proof.
  intros Hdb Hget HP Hdown fuel.
  rewrite (Lock_miss _ _ _ _ _ _ Hdb Hget).
  destruct (Lock_loop_spins P gs key Hdown fuel (time_Now (env w)) w HP)
    as (w' & Hrun & _ & _ & Hcalls).
  exists w'. auto.
Qed.


(** C3, as amended.  The key is not cached; [GetObject] on the sentinel
    returns an object that reads as an RFC 3339 timestamp more than
    [LockTimeout] (15 s) in the past.  Then the first iteration of [Lock]
    sends one [PutObject] that overwrites the sentinel with the current
    time and [Lock] returns what that request returned. *)
Theorem Lock_reclaims_expired gs key w s err e1 obj gerr buf lt e2 perr fuel :
  db w = Opened s ->
  txn_Get s (time_Now (env w)) key = inr err ->
  GetObject (bucket gs) (objLockName gs key) (env w) = (e1, (obj, gerr)) ->
  ioutil_ReadAll obj = (buf, None) ->
  time_Parse_RFC3339 (string_of_list_byte buf) = (lt, None) ->
  lt + LockTimeout < time_Now e1 ->
  PutObject (bucket gs) (objLockName gs key)
    (list_byte_of_string (time_Format_RFC3339 (time_Now e1))) e1
  = (e2, perr) ->
  Lock (S fuel) gs key w =
  Returns perr
    (Build_World (db w) e2
       (calls w ++
        [CallGetObject (bucket gs) (objLockName gs key);
         CallPutObject (bucket gs) (objLockName gs key)
           (list_byte_of_string (time_Format_RFC3339 (time_Now e1)))])).
Proof.
  intros Hdb Hget Hobj Hread Hparse Hold Hput.
  rewrite (Lock_miss _ _ _ _ _ _ Hdb Hget).
  cbn [Lock_loop]. unfold s3_GetObject.
  step_remote Hobj.
  set (w1 := Build_World (db w) e1 _).
  assert (Hw1 : putLockFile gs key w1 =
                Returns perr
                  (Build_World (db w) e2
                     (calls w ++
                      [CallGetObject (bucket gs) (objLockName gs key);
                       CallPutObject (bucket gs) (objLockName gs key)
                         (list_byte_of_string
                            (time_Format_RFC3339 (time_Now e1)))]))).
  { rewrite (putLockFile_Returns gs key w1 e2 perr Hput).
    subst w1. cbn [db env calls]. now rewrite <- app_assoc. }
  destruct gerr as [ge|]; [|exact Hw1].
  rewrite Hread, Hparse.
  unfold bind at 1. unfold Now at 1.
  replace (time.Before (time.Add lt LockTimeout) (time_Now (env w1)))
    with true; [exact Hw1|].
  symmetry. unfold time.Before, time.Add. apply Z.ltb_lt. exact Hold.
Qed.

(** ** Stat and the shared key space of the cache *)


(** ** The cache after a failed open *)

(** [getCacheDb] keeps the handle of a failed [badger.Open]. *)
Lemma getCacheDb_keeps_failed_handle h oerr :
  getCacheDb (OpenFailed h, Some oerr) = OpenFailed h.
Proof. reflexivity. Qed.

(** If the transaction methods of that handle return an error, the three
    cache functions answer as for an absent key. *)
Lemma cache_on_error_handle key data ttl w e :
  db w = OpenFailed (ReturnsError e) ->
  isCacheEntryExistent key w = Returns false w /\
  getCacheEntry key w = Returns None w /\
  setCacheEntry key data ttl w = Returns tt w.
Proof.
  intros Hdb. unfold isCacheEntryExistent, getCacheEntry, setCacheEntry.
  rewrite Hdb. cbn. repeat split. destruct w; cbn in *. now subst.
Qed.

(** C8, at the input on which it fails.  If the transaction methods
    dereference the handle of the failed open, the three cache functions
    panic, and so does every storage function that starts with a cache
    lookup: nothing in the package checks the handle or recovers. *)
Theorem cache_on_nil_handle_panics gs key data ttl w oerr fuel :
  db w = getCacheDb (OpenFailed NilDereference, Some oerr) ->
  isCacheEntryExistent key w = Panics /\
  getCacheEntry key w = Panics /\
  setCacheEntry key data ttl w = Panics /\
  Load gs key w = Panics /\
  Stat gs key w = Panics /\
  Lock fuel gs key w = Panics /\
  Unlock gs key w = Panics.
Proof.
  rewrite getCacheDb_keeps_failed_handle. intros Hdb.
  assert (Hex : forall k, isCacheEntryExistent k w = Panics)
    by (intros k; unfold isCacheEntryExistent; now rewrite Hdb).
  repeat split.
  - apply Hex.
  - unfold getCacheEntry. now rewrite Hdb.
  - unfold setCacheEntry. now rewrite Hdb.
  - unfold Load. now rewrite (bind_Panics _ _ _ (Hex key)).
  - unfold Stat. now rewrite (bind_Panics _ _ _ (Hex _)).
  - unfold Lock. now rewrite (bind_Panics _ _ _ (Hex key)).
  - unfold Unlock. now rewrite (bind_Panics _ _ _ (Hex key)).
Qed.

End Results.

(** * The package on the concrete world *)


Lemma Lock_retry_ignores_deadline_witness :
  exists w',
    Lock 100 Sample.gs Sample.long_key (Sample.world (Opened ∅) ∅ 0)
    = Running w' /\
    calls w' =
    repeat (CallGetObject "certs" (objLockName Sample.gs Sample.long_key)) 100.
Proof.
  assert (Hmiss :
    txn_Get ∅ (time_Now (env (Sample.world (Opened ∅) ∅ 0))) Sample.long_key
    = inr ErrKeyNotFound) by (vm_compute; reflexivity).
  assert (Hname :
    MemStore.check_names "certs" (objLockName Sample.gs Sample.long_key)
    = Some (MemStore.InvalidName "Object")) by (vm_compute; reflexivity).
  apply (Lock_retry_ignores_deadline (fun _ => True)
           Sample.gs Sample.long_key (Sample.world (Opened ∅) ∅ 0)
           ∅ ErrKeyNotFound eq_refl Hmiss I).
  intros e _. exists e, [], MemStore.NilObject, (MemStore.InvalidName "Object").
  split; [|exact I].
  change (MemStore.get "certs" (objLockName Sample.gs Sample.long_key) e
          = (e, (([], Some MemStore.NilObject),
                 Some (MemStore.InvalidName "Object")))).
  unfold MemStore.get. now rewrite Hname.
Defined.

(** C3 as stated fails on a cached key: the sentinel exists, holds a
    timestamp that parses and is 800 s old, and [Lock] returns [nil]
    without sending anything, so the sentinel is not overwritten. *)
Lemma Lock_cached_key_keeps_expired_sentinel :
  let sentinel := Sample.body "2023-11-14T22:00:00Z" in
  let w :=
    Sample.world
      (Opened {[ "k" := Sample.cached (Sample.body "certificate") ]})
      {[ ("certs", "acme/k.lock") :=
           (sentinel, Sample.t0 - 800 * time.Second) ]} 0 in
  GetObject "certs" (objLockName Sample.gs "k") (env w)
  = (env w, ((sentinel, None), None)) /\
  (exists lt,
     time_Parse_RFC3339 (string_of_list_byte sentinel) = (lt, None) /\
     lt + LockTimeout < time_Now (env w)) /\
  Lock 16 Sample.gs "k" w = Returns None w /\
  ~ (exists w' body,
       Lock 16 Sample.gs "k" w = Returns None w' /\
       In (CallPutObject "certs" "acme/k.lock" body) (calls w')).
Proof.
  intros sentinel w.
  assert (Hlock : Lock 16 Sample.gs "k" w = Returns None w)
    by (vm_compute; reflexivity).
  split; [vm_compute; reflexivity|]. split.
  - exists (Sample.t0 - 800 * time.Second). split; vm_compute; reflexivity.
  - split; [exact Hlock|].
    intros (w' & body & Hret & Hin). rewrite Hlock in Hret.
    injection Hret as <-. exact Hin.
Qed.

Lemma Lock_reclaims_expired_witness :
  let sentinel := Sample.body "2023-11-14T22:00:00Z" in
  let o : gmap (string * string) (bytes * Time) :=
    {[ ("certs", "acme/k.lock") :=
         (sentinel, Sample.t0 - 800 * time.Second) ]} in
  let fresh := Sample.body "2023-11-14T22:13:20Z" in
  Lock 1 Sample.gs "k" (Sample.world (Opened ∅) o 0) =
  Returns None
    (Build_World (Opened ∅)
       (Sample.remote (<[("certs", "acme/k.lock") := (fresh, Sample.t0)]> o) 0)
       [CallGetObject "certs" "acme/k.lock";
        CallPutObject "certs" "acme/k.lock" fresh]).
Proof.
  intros sentinel o fresh.
  refine (Lock_reclaims_expired Sample.gs "k" (Sample.world (Opened ∅) o 0)
            ∅ ErrKeyNotFound (Sample.remote o 0) (sentinel, None) None
            sentinel (Sample.t0 - 800 * time.Second)
            (Sample.remote
               (<[("certs", "acme/k.lock") := (fresh, Sample.t0)]> o) 0)
            None 0 _ _ _ _ _ _ _).
  - reflexivity.
  - reflexivity.
  - vm_compute; reflexivity.
  - reflexivity.
  - vm_compute; reflexivity.
  - vm_compute; reflexivity.
  - vm_compute; reflexivity.
Defined.

Lemma Lock_Unlock_cached_key_witness :
  let w :=
    Sample.world
      (Opened {[ "k" := Sample.cached (Sample.body "certificate") ]}) ∅ 0 in
  Lock 3 Sample.gs "k" w = Returns None w /\
  Unlock Sample.gs "k" w = Returns None w.
Proof.
  intros w.
  refine (Lock_Unlock_cached_key Sample.gs "k" w _
            (Sample.cached (Sample.body "certificate")) 3 _ _).
  - reflexivity.
  - vm_compute; reflexivity.
Defined.

Lemma Load_failure_NotFound_witness :
  let w := Sample.world (Opened ∅) ∅ 0 in
  Load Sample.gs "k" w =
  Returns ([], Some fsErrNotExist)
    (Build_World (Opened ∅) (Sample.remote ∅ 0)
       [CallGetObject "certs" "acme/k"]).
Proof.
  intros w.
  refine (Load_failure_NotFound Sample.gs "k" w ∅ ErrKeyNotFound
            (Sample.remote ∅ 0) ([], Some MemStore.NoSuchKey) None _ _ _ _).
  - reflexivity.
  - vm_compute; reflexivity.
  - vm_compute; reflexivity.
  - right. discriminate.
Defined.

(** C6 as stated fails in two ways.  On a key the cache refuses: [Load]
    of the key [!badger!x] fetches the object and returns it, but nothing
    is stored, and the next [Load] goes to the remote store again.  And
    before the hour is over: an entry written 0.9 s after a full second
    expires at the full second, so a [Load] 3599.2 s after the write is
    sent to the remote store. *)
Lemma Load_cache_refusal_and_early_expiry :
  (let o : gmap (string * string) (bytes * Time) :=
     {[ ("certs", "acme/!badger!x") :=
          (Sample.body "certificate", Sample.t0 - 5) ]} in
   let w := Sample.world (Opened ∅) o 0 in
   let w1 := Build_World (Opened ∅) (Sample.remote o 0)
               [CallGetObject "certs" "acme/!badger!x"] in
   Load Sample.gs "!badger!x" w
   = Returns (Sample.body "certificate", None) w1 /\
   isCacheEntryExistent "!badger!x" w1 = Returns false w1 /\
   Load Sample.gs "!badger!x" w1
   = Returns (Sample.body "certificate", None)
       (Build_World (Opened ∅) (Sample.remote o 0)
          [CallGetObject "certs" "acme/!badger!x";
           CallGetObject "certs" "acme/!badger!x"])) /\
  (let o : gmap (string * string) (bytes * Time) :=
     {[ ("certs", "acme/k") := (Sample.body "certificate", Sample.t0 - 5) ]} in
   let at_time (t : Time) : MemStore.t :=
     {| MemStore.buckets := ["certs"]; MemStore.objects := o;
        MemStore.clock := t; MemStore.latency := 0 |} in
   let written := Sample.t0 + 900000000 in
   let later := Sample.t0 + time.Hour + 100000000 in
   let d1 := Opened {[ "k" := Sample.cached (Sample.body "certificate") ]} in
   Load Sample.gs "k" (Build_World (Opened ∅) (at_time written) [])
   = Returns (Sample.body "certificate", None)
       (Build_World d1 (at_time written) [CallGetObject "certs" "acme/k"]) /\
   later - written < time.Hour /\
   isCacheEntryExistent "k" (Build_World d1 (at_time later) [])
   = Returns false (Build_World d1 (at_time later) []) /\
   Load Sample.gs "k" (Build_World d1 (at_time later) [])
   = Returns (Sample.body "certificate", None)
       (Build_World
          (Opened {[ "k" := {| Value := Sample.body "certificate";
                               ExpiresAt := 1700007200 |} ]})
          (at_time later) [CallGetObject "certs" "acme/k"])).
Proof.
  split.
  - intros o w w1. repeat split; vm_compute; reflexivity.
  - intros o at_time written later d1. repeat split; vm_compute; reflexivity.
Qed.

Lemma Load_read_through_witness :
  let o : gmap (string * string) (bytes * Time) :=
    {[ ("certs", "acme/k") := (Sample.body "certificate", Sample.t0 - 5) ]} in
  let w := Sample.world (Opened ∅) o 0 in
  let w1 :=
    Build_World
      (Opened {[ "k" := Sample.cached (Sample.body "certificate") ]})
      (Sample.remote o 0) [CallGetObject "certs" "acme/k"] in
  Load Sample.gs "k" w = Returns (Sample.body "certificate", None) w1 /\
  Load Sample.gs "k" w1 = Returns (Sample.body "certificate", None) w1.
Proof.
  intros o w w1.
  destruct (Load_read_through Sample.gs "k" w ∅ eq_refl) as [_ Hmiss].
  destruct (Hmiss ErrKeyNotFound (Sample.remote o 0)
              (Sample.body "certificate", None) (Sample.body "certificate"))
    as [Hload Hagain].
  - vm_compute; reflexivity.
  - vm_compute; reflexivity.
  - reflexivity.
  - split; [exact Hload|].
    apply Hagain.
    + vm_compute; reflexivity.
    + vm_compute; reflexivity.
    + vm_compute; discriminate.
    + vm_compute; reflexivity.
Defined.

Lemma Store_leaves_cache_witness :
  let d := Opened {[ "k" := Sample.cached (Sample.body "old") ]} in
  let w := Sample.world d ∅ time.Second in
  exists w',
    Store Sample.gs "k" (Sample.body "new") w = Returns None w' /\
    db w' = d /\
    Load Sample.gs "k" w' = Returns (Sample.body "old", None) w'.
Proof.
  intros d w.
  destruct (Store_leaves_cache Sample.gs "k" (Sample.body "new") w
              (MemStore.tick
                 (MemStore.with_objects
                    {[ ("certs", "acme/k") := (Sample.body "new", Sample.t0) ]}
                    (Sample.remote ∅ time.Second)))
              None) as [Hstore Hload].
  - vm_compute; reflexivity.
  - eexists. split; [exact Hstore|]. split; [reflexivity|].
    apply (Hload _ (Sample.cached (Sample.body "old")) eq_refl).
    vm_compute; reflexivity.
Defined.

Lemma NewS3Storage_encryption_key_witness :
  let short :=
    {| Endpoint := "s3.example.com"; Bucket := "certs"; AccessKeyID := "id";
       SecretAccessKey := "secret"; ObjPrefix := "acme";
       EncryptionKey := Some (replicate 16 x00) |} in
  let w := Sample.world (Opened ∅) ∅ 0 in
  NewS3Storage short w =
  Returns (None, Some (errorsNew "encryption key must have exactly 32 bytes"))
    w /\
  NewS3Storage Sample.opts w =
  Returns (Some Sample.gs, None)
    (Build_World (Opened ∅) (Sample.remote ∅ 0) [CallBucketExists "certs"]).
Proof.
  intros short w. split.
  - destruct (NewS3Storage_encryption_key short w) as [Hlen _].
    apply (Hlen (replicate 16 x00) eq_refl); vm_compute; discriminate.
  - destruct (NewS3Storage_encryption_key Sample.opts w) as [_ Hnil].
    destruct (Hnil (or_introl eq_refl)) as [_ Hok].
    apply (Hok (Sample.remote ∅ 0) (Sample.remote ∅ 0)); reflexivity.
Defined.



Lemma cache_on_nil_handle_panics_witness :
  let w := Sample.world (OpenFailed NilDereference) ∅ 0 in
  isCacheEntryExistent "k" w = Panics /\
  getCacheEntry "k" w = Panics /\
  setCacheEntry "k" (Sample.body "certificate") time.Hour w = Panics /\
  Load Sample.gs "k" w = Panics /\
  Stat Sample.gs "k" w = Panics /\
  Lock 1 Sample.gs "k" w = Panics /\
  Unlock Sample.gs "k" w = Panics.
Proof.
  intros w.
  exact (cache_on_nil_handle_panics Sample.gs "k"
           (Sample.body "certificate") time.Hour w
           (libError "badger" "Cannot acquire directory lock") 1 eq_refl).
Defined.

(** * Further properties of the package *)

(** ** Strings *)

Lemma append_cons (x : ascii) (a b : string) :
  String x a +:+ b = String x (a +:+ b).
Proof. reflexivity. Qed.

Lemma append_assoc (a b c : string) : (a +:+ b) +:+ c = a +:+ (b +:+ c).
Proof.
  induction a as [|x a IH]; [reflexivity|].
  rewrite !append_cons. now rewrite IH.
Qed.

Lemma length_append (a b : string) :
  String.length (a +:+ b) = (String.length a + String.length b)%nat.
Proof.
  induction a as [|x a IH]; [reflexivity|].
  rewrite append_cons. cbn [String.length]. now rewrite IH.
Qed.

Lemma append_inj_r (a b t : string) : a +:+ t = b +:+ t -> a = b.
Proof.
  revert b. induction a as [|x a IH]; intros [|y b] Heq.
  - reflexivity.
  - apply (f_equal String.length) in Heq.
    rewrite append_cons in Heq. cbn [String.length] in Heq.
    rewrite !length_append in Heq. cbn [String.length] in Heq. lia.
  - apply (f_equal String.length) in Heq.
    rewrite append_cons in Heq. cbn [String.length] in Heq.
    rewrite !length_append in Heq. cbn [String.length] in Heq. lia.
  - rewrite !append_cons in Heq. injection Heq as -> Heq.
    f_equal. now apply IH.
Qed.

Lemma copy32_exact (k : bytes) : length k = 32%nat -> copy32 k = k.
Proof. intros Hk. unfold copy32. now apply take_app_length'. Qed.

Section Coverage.
Context {E : Type} `{S3Env E} `{GoLib}.
Implicit Types (w : World E) (gs : S3Storage) (key : string).
Implicit Types (s : gmap string Entry) (fuel : nat).

Ltac step Hcall := rewrite (bind_Returns _ _ _ _ _ Hcall).

Ltac step_remote Hop :=
  erewrite bind_Returns by (apply remote_Returns; exact Hop);
  cbv beta iota.

(** ** cache.go *)

Lemma Unix_add_Hour (t : Time) :
  time.Unix (t + time.Hour) = time.Unix t + 3600.
Proof.
  unfold time.Unix, time.Hour, time.Minute, time.Second.
  replace (t + 60 * (60 * 1000000000)) with (t + 3600 * 1000000000) by lia.
  rewrite Z.div_add by lia. reflexivity.
Qed.

(** A negative Unix second wraps around as [uint64]; zero stands for no
    expiry. *)
Lemma isExpired_wrapped (t : Time) (ttl : Duration) (now : Time) :
  time.Unix (t + ttl) <= 0 -> 0 <= now ->
  time.Unix now < 2 ^ 64 + time.Unix (t + ttl) ->
  isExpired (uint64 (time.Unix (t + ttl))) now = false.
Proof.
  intros Hneg Hnow Hlt. pose proof (Unix_nonneg now Hnow) as Hu.
  unfold isExpired. rewrite (uint64_nonneg (time.Unix now) Hu).
  destruct (uint64 (time.Unix (t + ttl)) =? 0) eqn:Hz; [reflexivity|].
  apply Z.leb_gt. apply Z.eqb_neq in Hz. unfold uint64 in *.
  destruct (time.Unix (t + ttl) <? 0) eqn:Hs.
  - lia.
  - apply Z.ltb_ge in Hs. lia.
Qed.

Lemma getCacheEntry_miss key w s err :
  db w = Opened s -> txn_Get s (time_Now (env w)) key = inr err ->
  getCacheEntry key w = Returns None w.
Proof.
  intros Hdb Hget. unfold getCacheEntry. rewrite Hdb. cbn [db_View].
  now rewrite Hget.
Qed.

(** X1.  [setCacheEntry] changes neither the world nor the request log.
    For a key or a value that the database refuses (an empty key, a key
    that starts with [!badger!], a key of more than 65000 bytes, a value
    beyond the value log file size) the error is dropped and the database
    is what it was.  Otherwise the entry replaces whatever the key held
    and its expiry is the Unix second of the time of the write plus the
    TTL: on every later state with that database, with the clock at or
    after the epoch, both lookups find the bytes as written while the
    Unix second of the clock is before that second, and report the key as
    absent from that second on.  A second that is zero or negative does
    not expire the entry: zero stands for no expiry and a negative one
    wraps around as an unsigned number. *)
Theorem setCacheEntry_then_lookup key data ttl w s :
  db w = Opened s ->
  let expiry := time.Unix (time_Now (env w) + ttl) in
  exists w1,
    setCacheEntry key data ttl w = Returns tt w1 /\
    env w1 = env w /\ calls w1 = calls w /\
    (forall err, txn_modify_check key data = Some err -> db w1 = db w) /\
    (txn_modify_check key data = None ->
     forall w2,
       db w2 = db w1 ->
       (0 <= time_Now (env w2) ->
        time.Unix (time_Now (env w2)) < expiry ->
        isCacheEntryExistent key w2 = Returns true w2 /\
        getCacheEntry key w2 = Returns (Some (string_of_list_byte data)) w2 /\
        list_byte_of_string (string_of_list_byte data) = data) /\
       (0 < expiry ->
        expiry <= time.Unix (time_Now (env w2)) ->
        isCacheEntryExistent key w2 = Returns false w2 /\
        getCacheEntry key w2 = Returns None w2) /\
       (expiry <= 0 ->
        0 <= time_Now (env w2) ->
        time.Unix (time_Now (env w2)) < 2 ^ 64 + expiry ->
        isCacheEntryExistent key w2 = Returns true w2 /\
        getCacheEntry key w2
        = Returns (Some (string_of_list_byte data)) w2)).
Proof.
  intros Hdb expiry. eexists.
  split; [exact (setCacheEntry_Opened _ _ _ _ _ Hdb)|].
  split; [reflexivity|]. split; [reflexivity|]. cbn [db]. split.
  - intros err ->. now rewrite Hdb.
  - intros Hok. rewrite Hok. intros w2 Hdb2.
    pose proof (txn_modify_check_key _ _ Hok) as Hkey.
    set (e := NewEntry_WithTTL (time_Now (env w)) data ttl) in *.
    assert (Hs : (<[key := e]> s) !! key = Some e) by apply lookup_insert_eq.
    assert (Hhit : isExpired (ExpiresAt e) (time_Now (env w2)) = false ->
      isCacheEntryExistent key w2 = Returns true w2 /\
      getCacheEntry key w2 = Returns (Some (string_of_list_byte data)) w2).
    { intros Hlive.
      pose proof (txn_Get_live _ _ _ _ Hkey Hs Hlive) as Hget.
      split; [exact (isCacheEntryExistent_hit _ _ _ _ Hdb2 Hget)|].
      exact (getCacheEntry_hit _ _ _ _ Hdb2 Hget). }
    split; [|split].
    + intros Hnow Hlive.
      destruct Hhit as [Hex Hval];
        [exact (isExpired_before _ _ _ Hnow Hlive)|].
      split; [exact Hex|]. split; [exact Hval|].
      apply list_byte_of_string_of_list_byte.
    + intros Hpos Hdead.
      destruct (txn_Get_expired _ (time_Now (env w2)) _ _ Hs
                  (isExpired_from _ _ _ Hpos Hdead)) as [err Hget].
      split; [exact (isCacheEntryExistent_miss _ _ _ _ Hdb2 Hget)|].
      exact (getCacheEntry_miss _ _ _ _ Hdb2 Hget).
    + intros Hneg Hnow Hlt.
      exact (Hhit (isExpired_wrapped _ _ _ Hneg Hnow Hlt)).
Qed.

(** X2.  [setCacheEntry] on one key leaves the answers for every other
    key as they were: on any world and at any time, both lookups of
    another key return what they returned on the database before the
    write. *)
Theorem setCacheEntry_other_keys key data ttl w s k' :
  db w = Opened s ->
  k' <> key ->
  exists s1,
    setCacheEntry key data ttl w
    = Returns tt (Build_World (Opened s1) (env w) (calls w)) /\
    forall (e : E) (cs : list RemoteCall),
      returned (isCacheEntryExistent k' (Build_World (Opened s1) e cs))
      = returned (isCacheEntryExistent k' (Build_World (Opened s) e cs)) /\
      returned (getCacheEntry k' (Build_World (Opened s1) e cs))
      = returned (getCacheEntry k' (Build_World (Opened s) e cs)).
Proof.
  intros Hdb Hne. eexists.
  split; [exact (setCacheEntry_Opened _ _ _ _ _ Hdb)|].
  intros e cs. unfold isCacheEntryExistent, getCacheEntry, txn_Get.
  cbn [db env db_View].
  destruct (txn_modify_check key data); [split; reflexivity|].
  rewrite lookup_insert_ne by congruence.
  destruct (String.eqb k' EmptyString); [split; reflexivity|].
  destruct (s !! k') as [e'|]; [|split; reflexivity].
  destruct (isExpired (ExpiresAt e') (time_Now e)); split; reflexivity.
Qed.

(** X3.  Unless the handle panics, the two lookups agree and change
    nothing: [isCacheEntryExistent] answers [true] exactly when
    [getCacheEntry] returns a value, and both return in the state they
    were called in. *)
Theorem isCacheEntryExistent_agrees_with_getCacheEntry key w :
  db w <> OpenFailed NilDereference ->
  exists o,
    getCacheEntry key w = Returns o w /\
    isCacheEntryExistent key w
    = Returns (match o with Some _ => true | None => false end) w.
Proof.
  intros Hdb. unfold getCacheEntry, isCacheEntryExistent.
  destruct (db w) as [s|[e|]]; cbn [db_View].
  - destruct (txn_Get s (time_Now (env w)) key) as [item|err];
      eexists; split; reflexivity.
  - eexists; split; reflexivity.
  - now elim Hdb.
Qed.

(** ** Object names *)

(** X4.  For one storage, different keys have different object names and
    different sentinel names. *)
Theorem objName_injective gs k1 k2 :
  (objName gs k1 = objName gs k2 <-> k1 = k2) /\
  (objLockName gs k1 = objLockName gs k2 <-> k1 = k2).
Proof.
  assert (Hinj : objName gs k1 = objName gs k2 -> k1 = k2).
  { unfold objName. intros Heq.
    apply String.app_inj in Heq. now apply String.app_inj in Heq. }
  split; split; intros Heq; try (now subst).
  - now apply Hinj.
  - unfold objLockName in Heq. apply append_inj_r in Heq. now apply Hinj.
Qed.

(** X5.  The sentinel of [key] is the object of the key [key ++ ".lock"]:
    [Store] under that key writes the sentinel of [key], and [Delete] of
    that key sends the request that removes it. *)
Theorem sentinel_is_an_object_name gs key value :
  objLockName gs key = objName gs (key +:+ ".lock") /\
  Store gs (key +:+ ".lock") value
  = s3_PutObject (bucket gs) (objLockName gs key)
      (ByteReader (iowrap gs) value) /\
  Delete gs (key +:+ ".lock")
  = s3_RemoveObject (bucket gs) (objLockName gs key).
Proof.
  assert (Hname : objLockName gs key = objName gs (key +:+ ".lock")).
  { unfold objLockName, objName. now rewrite !append_assoc. }
  split; [exact Hname|]. unfold Store, Delete. now rewrite Hname.
Qed.

(** ** Unlock, Delete, Exists, List *)

(** X6.  For a key that is not cached [Unlock] sends one [RemoveObject]
    on the sentinel and returns the error of that request as it is; it
    does not retry and leaves the cache alone. *)
Theorem Unlock_uncached_key gs key w s err e1 rerr :
  db w = Opened s ->
  txn_Get s (time_Now (env w)) key = inr err ->
  RemoveObject (bucket gs) (objLockName gs key) (env w) = (e1, rerr) ->
  Unlock gs key w =
  Returns rerr
    (Build_World (db w) e1
       (calls w ++ [CallRemoveObject (bucket gs) (objLockName gs key)])).
Proof.
  intros Hdb Hget Hrm. unfold Unlock.
  step (isCacheEntryExistent_miss _ _ _ _ Hdb Hget).
  exact (remote_Returns _ _ _ _ _ Hrm).
Qed.

(** X7.  [Delete] sends one [RemoveObject] on the object of the key and
    returns its error; the cache is not invalidated, so an entry that is
    still live answers the next [Load] with the deleted value. *)
Theorem Delete_leaves_cache gs key w e1 rerr :
  RemoveObject (bucket gs) (objName gs key) (env w) = (e1, rerr) ->
  let w' := Build_World (db w) e1
              (calls w ++ [CallRemoveObject (bucket gs) (objName gs key)]) in
  Delete gs key w = Returns rerr w' /\
  forall s e,
    db w = Opened s ->
    txn_Get s (time_Now e1) key = inl e ->
    Load gs key w' = Returns (Value e, None) w'.
Proof.
  intros Hrm w'. split.
  - exact (remote_Returns _ _ _ _ _ Hrm).
  - intros s e Hdb Hget. now apply (Load_hit gs key w' s e).
Qed.

(** X8.  [Exists] asks the remote store only: it answers [true] exactly
    when [StatObject] returns no error, whatever the cache holds.  So it
    can answer [false] for a key that the next [Load] still serves from
    the cache. *)
Theorem Exists_ignores_cache gs key w e1 oi serr :
  StatObject (bucket gs) (objName gs key) (env w) = (e1, (oi, serr)) ->
  let w' := Build_World (db w) e1
              (calls w ++ [CallStatObject (bucket gs) (objName gs key)]) in
  Exists gs key w
  = Returns (match serr with None => true | Some _ => false end) w' /\
  forall s e,
    db w = Opened s ->
    txn_Get s (time_Now e1) key = inl e ->
    Load gs key w' = Returns (Value e, None) w'.
Proof.
  intros Hstat w'. split.
  - unfold Exists, s3_StatObject. step_remote Hstat. reflexivity.
  - intros s e Hdb Hget. now apply (Load_hit gs key w' s e).
Qed.

(** X9.  [Store], [Delete], [Exists] and [List] never look at the cache
    handle: they return on every state, also after a failed open, and
    leave the database as it is.  [List] returns one key per object
    listed and never an error. *)
Theorem passthrough_calls_skip_cache gs key value pfx recursive w :
  (exists r w', Store gs key value w = Returns r w' /\ db w' = db w) /\
  (exists r w', Delete gs key w = Returns r w' /\ db w' = db w) /\
  (exists r w', Exists gs key w = Returns r w' /\ db w' = db w) /\
  (exists ks w',
     List gs pfx recursive w = Returns (ks, None) w' /\ db w' = db w /\
     length ks = length (snd (ListObjects (bucket gs) pfx recursive (env w)))).
Proof.
  unfold Store, Delete, Exists, List, bind, ret.
  unfold s3_PutObject, s3_RemoveObject, s3_StatObject, s3_ListObjects, remote.
  repeat split.
  - destruct (PutObject _ _ _ (env w)) as [e1 r]. now eexists _, _.
  - destruct (RemoveObject _ _ (env w)) as [e1 r]. now eexists _, _.
  - destruct (StatObject _ _ (env w)) as [e1 [oi r]]. now eexists _, _.
  - destruct (ListObjects _ _ _ (env w)) as [e1 objs].
    eexists _, _. repeat split. cbn [snd]. now rewrite length_map.
Qed.

(** ** Load *)

(** X10.  On an opened database [Load] always returns, and it changes at
    most the entry of its own key; when it returns an error the database
    is exactly what it was. *)
Theorem Load_changes_own_entry_only gs key w s :
  db w = Opened s ->
  exists r w' s',
    Load gs key w = Returns r w' /\
    db w' = Opened s' /\
    (forall k, k <> key -> s' !! k = s !! k) /\
    (snd r <> None -> s' = s).
Proof.
  intros Hdb.
  destruct (txn_Get s (time_Now (env w)) key) as [e|err] eqn:Hget.
  - exists (Value e, None), w, s. rewrite (Load_hit _ _ _ _ _ Hdb Hget).
    split; [reflexivity|]. split; [exact Hdb|]. split; [reflexivity|].
    intros Hne. now elim Hne.
  - rewrite (Load_miss _ _ _ _ _ Hdb Hget).
    unfold Load_remote, s3_GetObject.
    destruct (GetObject (bucket gs) (objName gs key) (env w))
      as [e1 [r gerr]] eqn:Hobj.
    step_remote Hobj.
    destruct gerr as [ge|].
    { eexists _, _, s. split; [reflexivity|]. split; [exact Hdb|].
      split; reflexivity. }
    destruct (ioutil_ReadAll (WrapReader (iowrap gs) r)) as [buf [re|]].
    { eexists _, _, s. split; [reflexivity|]. split; [exact Hdb|].
      split; reflexivity. }
    erewrite bind_Returns by (apply setCacheEntry_Opened; exact Hdb).
    eexists _, _, _. split; [reflexivity|]. split; [reflexivity|]. split.
    + intros k Hk. destruct (txn_modify_check key buf); [reflexivity|].
      apply lookup_insert_ne. congruence.
    + intros Hne. now elim Hne.
Qed.

(** X11.  [Store] followed by [Load] of a key that is not cached: when
    the write succeeds, the remote store hands back what was written and
    the transform undoes itself on it, [Load] returns the stored value.
    The remote object holds the wrapped bytes.  The cache entry written
    by [Load] holds the plain value and expires at the Unix second of the
    time of the read plus one hour; for a key or a value that the
    database refuses, the value is returned all the same and the cache is
    what it was. *)
Theorem Store_then_Load gs key value w s err e1 e2 :
  db w = Opened s ->
  PutObject (bucket gs) (objName gs key) (ByteReader (iowrap gs) value)
    (env w) = (e1, None) ->
  txn_Get s (time_Now e1) key = inr err ->
  GetObject (bucket gs) (objName gs key) e1
  = (e2, ((ByteReader (iowrap gs) value, None), None)) ->
  WrapReader (iowrap gs) (ByteReader (iowrap gs) value, None)
  = (value, None) ->
  (do _ <- Store gs key value; Load gs key) w =
  Returns (value, None)
    (Build_World
       (Opened
          match txn_modify_check key value with
          | None =>
              <[key := {| Value := value;
                          ExpiresAt :=
                            uint64 (time.Unix (time_Now e2 + time.Hour)) |}]> s
          | Some _ => s
          end)
       e2
       (calls w ++
        [CallPutObject (bucket gs) (objName gs key)
           (ByteReader (iowrap gs) value);
         CallGetObject (bucket gs) (objName gs key)])).
Proof.
  intros Hdb Hput Hget Hobj Hwrap.
  unfold Store, s3_PutObject. cbv zeta. step_remote Hput.
  erewrite Load_miss; [|exact Hdb|exact Hget].
  unfold Load_remote, s3_GetObject. step_remote Hobj.
  rewrite Hwrap. cbn [ioutil_ReadAll].
  erewrite bind_Returns by (apply setCacheEntry_Opened; exact Hdb).
  cbn [calls env db]. unfold ret. rewrite <- app_assoc.
  reflexivity.
Qed.

(** X12.  After a [Load] that fetched the key from the remote store and
    could cache it, with the clock at or after the epoch, [Unlock] and
    [Lock] of that key return at once without a request: a sentinel
    written before the [Load] is not removed by the [Unlock] that follows
    it.  For a key or a value that the database refuses nothing was
    cached, and an [Unlock] that finds no entry sends its [RemoveObject]
    as ever. *)
Theorem Unlock_after_Load_sends_nothing gs key w s err e1 r buf :
  db w = Opened s ->
  txn_Get s (time_Now (env w)) key = inr err ->
  GetObject (bucket gs) (objName gs key) (env w) = (e1, (r, None)) ->
  ioutil_ReadAll (WrapReader (iowrap gs) r) = (buf, None) ->
  exists w1,
    Load gs key w = Returns (buf, None) w1 /\
    calls w1 = (calls w ++ [CallGetObject (bucket gs) (objName gs key)])%list /\
    (txn_modify_check key buf = None ->
     0 <= time_Now e1 ->
     Unlock gs key w1 = Returns None w1 /\
     forall fuel, Lock fuel gs key w1 = Returns None w1) /\
    (forall cerr err1 e2 rerr,
       txn_modify_check key buf = Some cerr ->
       txn_Get s (time_Now e1) key = inr err1 ->
       RemoveObject (bucket gs) (objLockName gs key) e1 = (e2, rerr) ->
       db w1 = db w /\
       Unlock gs key w1 =
       Returns rerr
         (Build_World (db w) e2
            (calls w1 ++
             [CallRemoveObject (bucket gs) (objLockName gs key)]))).
Proof.
  intros Hdb Hget Hobj Hread.
  rewrite (Load_miss _ _ _ _ _ Hdb Hget).
  unfold Load_remote, s3_GetObject. step_remote Hobj. rewrite Hread.
  erewrite bind_Returns by (apply setCacheEntry_Opened; exact Hdb).
  eexists. split; [reflexivity|]. split; [reflexivity|]. split.
  - intros Hok Hnow. rewrite Hok.
    set (e := NewEntry_WithTTL (time_Now e1) buf (time.Hour * 1)).
    assert (Hlive : txn_Get (<[key := e]> s) (time_Now e1) key = inl e).
    { apply txn_Get_live;
        [exact (txn_modify_check_key _ _ Hok)|apply lookup_insert_eq|].
      apply (isExpired_before (time_Now e1) time.Hour (time_Now e1) Hnow).
      rewrite Unix_add_Hour. lia. }
    split.
    + eapply Unlock_hit; [reflexivity|exact Hlive].
    + intros fuel. eapply Lock_hit; [reflexivity|exact Hlive].
  - intros cerr err1 e2 rerr Hno Hget1 Hrm. rewrite Hno. cbn [db calls].
    split; [now rewrite Hdb|].
    unfold Unlock.
    erewrite bind_Returns
      by (eapply isCacheEntryExistent_miss; [reflexivity|exact Hget1]).
    unfold s3_RemoveObject. erewrite remote_Returns by exact Hrm.
    cbn [db calls]. now rewrite Hdb.
Qed.

(** ** Stat *)

Lemma Stat_hit gs key w s e ki :
  db w = Opened s ->
  txn_Get s (time_Now (env w)) (key +:+ "_ki") = inl e ->
  json_Unmarshal (Value e) KeyInfo_zero = (ki, None) ->
  Stat gs key w = Returns (ki, None) w.
Proof.
  intros Hdb Hget Hjson. unfold Stat. cbv zeta.
  step (isCacheEntryExistent_hit _ _ _ _ Hdb Hget).
  step (getCacheEntry_hit _ _ _ _ Hdb Hget).
  rewrite list_byte_of_string_of_list_byte, Hjson. reflexivity.
Qed.

(** X13.  [Stat] answers from any live entry under [key ++ "_ki"] that
    decodes, without a request to the remote store, and returns the
    decoded value as it is - whoever wrote the entry and whatever key it
    names. *)
Theorem Stat_cache_hit gs key w s e ki :
  db w = Opened s ->
  txn_Get s (time_Now (env w)) (key +:+ "_ki") = inl e ->
  json_Unmarshal (Value e) KeyInfo_zero = (ki, None) ->
  Stat gs key w = Returns (ki, None) w.
Proof.
  intros Hdb Hget Hjson.
  exact (Stat_hit gs key w s e ki Hdb Hget Hjson).
Qed.

Lemma Stat_miss gs key w s err :
  db w = Opened s ->
  txn_Get s (time_Now (env w)) (key +:+ "_ki") = inr err ->
  Stat gs key w = Stat_remote gs key KeyInfo_zero w.
Proof.
  intros Hdb Hget. unfold Stat. cbv zeta.
  now step (isCacheEntryExistent_miss _ _ _ _ Hdb Hget).
Qed.

(** X14.  [Stat] twice: when the JSON written by the first call decodes
    back to the value it encodes and the database takes the entry, every
    [Stat] of the key on a state with that database, with the clock at or
    after the epoch and its Unix second before the Unix second of the
    first call plus one hour, returns the same key information and sends
    nothing - also when the remote object has changed meanwhile.  For a
    key that the database refuses the first call caches nothing. *)
Theorem Stat_twice gs key w s err e1 oi js :
  db w = Opened s ->
  txn_Get s (time_Now (env w)) (key +:+ "_ki") = inr err ->
  StatObject (bucket gs) (objName gs key) (env w) = (e1, (oi, None)) ->
  let ki := {| Key := key; Modified := oi_LastModified oi;
               Size := oi_Size oi; IsTerminal := true |} in
  json_Marshal ki = (js, None) ->
  json_Unmarshal js KeyInfo_zero = (ki, None) ->
  exists w1,
    Stat gs key w = Returns (ki, None) w1 /\
    (forall cerr,
       txn_modify_check (key +:+ "_ki") js = Some cerr -> db w1 = db w) /\
    (txn_modify_check (key +:+ "_ki") js = None ->
     forall gs' w2,
       db w2 = db w1 ->
       0 <= time_Now (env w2) ->
       time.Unix (time_Now (env w2)) < time.Unix (time_Now e1 + time.Hour) ->
       Stat gs' key w2 = Returns (ki, None) w2).
Proof.
  intros Hdb Hget Hstat ki Hjson Hback.
  rewrite (Stat_miss _ _ _ _ _ Hdb Hget).
  unfold Stat_remote, s3_StatObject. step_remote Hstat.
  fold ki. rewrite Hjson.
  erewrite bind_Returns by (apply setCacheEntry_Opened; exact Hdb).
  eexists. split; [reflexivity|]. cbn [db env]. split.
  - intros cerr ->. now rewrite Hdb.
  - intros Hok. rewrite Hok. intros gs' w2 Hdb2 Hnow Hlive.
    apply (Stat_hit gs' key w2 _
             (NewEntry_WithTTL (time_Now e1) js (time.Hour * 1)) ki Hdb2);
      [|exact Hback].
    apply txn_Get_live;
      [exact (txn_modify_check_key _ _ Hok)|apply lookup_insert_eq|].
    exact (isExpired_before (time_Now e1) time.Hour _ Hnow Hlive).
Qed.

(** X15.  On a cache miss an error of [StatObject] is returned as it is,
    with the zero key information, and nothing is cached. *)
Theorem Stat_remote_error gs key w s err e1 oi serr :
  db w = Opened s ->
  txn_Get s (time_Now (env w)) (key +:+ "_ki") = inr err ->
  StatObject (bucket gs) (objName gs key) (env w) = (e1, (oi, Some serr)) ->
  Stat gs key w =
  Returns (KeyInfo_zero, Some serr)
    (Build_World (db w) e1
       (calls w ++ [CallStatObject (bucket gs) (objName gs key)])).
Proof.
  intros Hdb Hget Hstat. rewrite (Stat_miss _ _ _ _ _ Hdb Hget).
  unfold Stat_remote, s3_StatObject. step_remote Hstat. reflexivity.
Qed.

(** X16.  A live entry under [key ++ "_ki"] that does not decode is
    passed over: [Stat] asks the remote store.  If that succeeds the
    fresh value is returned and the entry is replaced by the fresh JSON,
    expiring at the Unix second of the call plus one hour - unless the
    database refuses the write, which leaves the old entry in place; if
    the request fails the error comes back with whatever the decoder had
    filled in. *)
Theorem Stat_undecodable_entry gs key w s e ki' derr e1 oi :
  db w = Opened s ->
  txn_Get s (time_Now (env w)) (key +:+ "_ki") = inl e ->
  json_Unmarshal (Value e) KeyInfo_zero = (ki', Some derr) ->
  let cs := (calls w ++ [CallStatObject (bucket gs) (objName gs key)])%list in
  let ki := {| Key := key; Modified := oi_LastModified oi;
               Size := oi_Size oi; IsTerminal := true |} in
  (forall serr,
     StatObject (bucket gs) (objName gs key) (env w) = (e1, (oi, Some serr)) ->
     Stat gs key w = Returns (ki', Some serr) (Build_World (db w) e1 cs)) /\
  (forall js,
     StatObject (bucket gs) (objName gs key) (env w) = (e1, (oi, None)) ->
     json_Marshal ki = (js, None) ->
     Stat gs key w =
     Returns (ki, None)
       (Build_World
          (Opened
             match txn_modify_check (key +:+ "_ki") js with
             | None =>
                 <[key +:+ "_ki" :=
                     {| Value := js;
                        ExpiresAt :=
                          uint64 (time.Unix (time_Now e1 + time.Hour)) |}]> s
             | Some _ => s
             end)
          e1 cs)).
Proof.
  intros Hdb Hget Hjson cs ki.
  assert (Hstat : Stat gs key w = Stat_remote gs key ki' w).
  { unfold Stat. cbv zeta.
    step (isCacheEntryExistent_hit _ _ _ _ Hdb Hget).
    step (getCacheEntry_hit _ _ _ _ Hdb Hget).
    now rewrite list_byte_of_string_of_list_byte, Hjson. }
  rewrite Hstat. unfold Stat_remote, s3_StatObject. split.
  - intros serr Hobj. step_remote Hobj. reflexivity.
  - intros js Hobj Hmarshal. step_remote Hobj. fold ki. rewrite Hmarshal.
    erewrite bind_Returns by (apply setCacheEntry_Opened; exact Hdb).
    reflexivity.
Qed.

(** ** NewS3Storage *)

(** X17.  With a key of exactly 32 bytes, a client that can be built and
    a bucket that exists, [NewS3Storage] returns a storage whose transform
    is [SecretBoxIO] with that very key, and has sent one [BucketExists]
    request. *)
Theorem NewS3Storage_32_byte_key opts k w e1 e2 :
  EncryptionKey opts = Some k ->
  length k = 32%nat ->
  minio_New (Endpoint opts) (AccessKeyID opts) (SecretAccessKey opts) (env w)
  = (e1, None) ->
  BucketExists (Bucket opts) e1 = (e2, (true, None)) ->
  NewS3Storage opts w =
  Returns (Some {| prefix := ObjPrefix opts; bucket := Bucket opts;
                   iowrap := SecretBoxIO k |}, None)
    (Build_World (db w) e2 (calls w ++ [CallBucketExists (Bucket opts)])).
Proof.
  intros Hk Hlen Hnew Hbucket. unfold NewS3Storage. rewrite Hk.
  cbn [len default orb]. rewrite Hlen. cbn [Z.of_nat Z.eqb Pos.eqb negb].
  change (Z.of_nat 32 =? 0) with false. change (Z.of_nat 32 =? 32) with true.
  cbn [negb]. change (id k) with k. rewrite (copy32_exact k Hlen).
  unfold bind, s3_New, s3_BucketExists, remote, ret.
  rewrite Hnew. cbn [env]. rewrite Hbucket. reflexivity.
Qed.

(** X18.  [NewS3Storage] always returns, never touches the cache, and
    returns a storage exactly when it returns no error; the storage it
    returns carries the prefix and the bucket of the options. *)
Theorem NewS3Storage_storage_or_error opts w :
  exists r w',
    NewS3Storage opts w = Returns r w' /\
    db w' = db w /\
    (fst r = None <-> snd r <> None) /\
    (forall gs, fst r = Some gs ->
       prefix gs = ObjPrefix opts /\ bucket gs = Bucket opts).
Proof.
  assert (Hconnect : forall io,
    exists r w',
      (do err <- s3_New (Endpoint opts) (AccessKeyID opts)
                   (SecretAccessKey opts);
       match err with
       | Some e => ret (None, Some e)
       | None =>
           do '(ok, err) <- s3_BucketExists (Bucket opts);
           match err with
           | Some e => ret (None, Some e)
           | None =>
               if negb ok then
                 ret (None, Some (errorsNew
                        ("S3 bucket " +:+ Bucket opts +:+ " does not exist")))
               else ret (Some {| prefix := ObjPrefix opts;
                                 bucket := Bucket opts; iowrap := io |}, None)
           end
       end) w = Returns r w' /\
      db w' = db w /\
      (fst r = None <-> snd r <> None) /\
      (forall gs, fst r = Some gs ->
         prefix gs = ObjPrefix opts /\ bucket gs = Bucket opts)).
  { intros io. unfold bind, s3_New, s3_BucketExists, remote, ret.
    destruct (minio_New _ _ _ (env w)) as [e1 [ce|]]; cbn [env db calls].
    - eexists _, _. split; [reflexivity|]. split; [reflexivity|].
      cbn [fst snd]. split; [split; [discriminate|reflexivity]|discriminate].
    - destruct (BucketExists (Bucket opts) e1) as [e2 [ok [be|]]].
      + eexists _, _. split; [reflexivity|]. split; [reflexivity|].
        cbn [fst snd]. split; [split; [discriminate|reflexivity]|discriminate].
      + destruct ok; cbn [negb].
        * eexists _, _. split; [reflexivity|]. split; [reflexivity|].
          cbn [fst snd]. split; [split; [discriminate|congruence]|].
          intros gs [= <-]. split; reflexivity.
        * eexists _, _. split; [reflexivity|]. split; [reflexivity|].
          cbn [fst snd].
          split; [split; [discriminate|reflexivity]|discriminate]. }
  unfold NewS3Storage.
  destruct (_ || _); [apply Hconnect|].
  destruct (negb _); [|apply Hconnect].
  eexists _, _. split; [reflexivity|]. split; [reflexivity|].
  cbn [fst snd]. split; [split; [discriminate|reflexivity]|discriminate].
Qed.

(** X19.  With a usable key (absent, empty or 32 bytes long) the three
    ways the connection can fail: an error of the client constructor is
    returned before any request is sent; an error of [BucketExists] is
    returned as it is; a bucket reported missing gives the error that
    names the bucket.  No storage is returned in any of them. *)
Theorem NewS3Storage_connection_errors opts w :
  len (EncryptionKey opts) = 0 \/ len (EncryptionKey opts) = 32 ->
  (forall e1 cerr,
     minio_New (Endpoint opts) (AccessKeyID opts) (SecretAccessKey opts)
       (env w) = (e1, Some cerr) ->
     NewS3Storage opts w =
     Returns (None, Some cerr) (Build_World (db w) e1 (calls w))) /\
  (forall e1 e2 ok berr,
     minio_New (Endpoint opts) (AccessKeyID opts) (SecretAccessKey opts)
       (env w) = (e1, None) ->
     BucketExists (Bucket opts) e1 = (e2, (ok, Some berr)) ->
     NewS3Storage opts w =
     Returns (None, Some berr)
       (Build_World (db w) e2 (calls w ++ [CallBucketExists (Bucket opts)]))) /\
  (forall e1 e2,
     minio_New (Endpoint opts) (AccessKeyID opts) (SecretAccessKey opts)
       (env w) = (e1, None) ->
     BucketExists (Bucket opts) e1 = (e2, (false, None)) ->
     NewS3Storage opts w =
     Returns (None,
              Some (errorsNew
                      ("S3 bucket " +:+ Bucket opts +:+ " does not exist")))
       (Build_World (db w) e2 (calls w ++ [CallBucketExists (Bucket opts)]))).
Proof.
  intros Hkey. unfold NewS3Storage.
  assert (Hsel :
    (match EncryptionKey opts with None => true | Some _ => false end
     || (len (EncryptionKey opts) =? 0)) = true \/
    ((match EncryptionKey opts with None => true | Some _ => false end
      || (len (EncryptionKey opts) =? 0)) = false /\
     negb (len (EncryptionKey opts) =? 32) = false)).
  { destruct Hkey as [-> | ->].
    - left. now rewrite orb_true_r.
    - destruct (EncryptionKey opts); [right|left]; split; reflexivity. }
  destruct Hsel as [-> | [-> ->]];
    unfold bind, s3_New, s3_BucketExists, remote, ret;
    (split; [|split]).
  all: try (intros e1 cerr Hnew; now rewrite Hnew).
  all: try (intros e1 e2 ok berr Hnew Hb; rewrite Hnew; cbn [env];
            now rewrite Hb).
  all: intros e1 e2 Hnew Hb; rewrite Hnew; cbn [env]; now rewrite Hb.
Qed.

(** ** Lock *)

Lemma txn_Get_miss_later s (t t' : Time) key err :
  txn_Get s t key = inr err -> 0 <= t -> t <= t' ->
  exists err', txn_Get s t' key = inr err'.
Proof.
  unfold txn_Get. destruct (String.eqb key EmptyString); [now eexists|].
  destruct (s !! key) as [e|]; [|now eexists].
  destruct (isExpired (ExpiresAt e) t) eqn:Hexp; [|discriminate].
  intros _ Hepoch Hle.
  assert (Hexp' : isExpired (ExpiresAt e) t' = true).
  { unfold isExpired in *. destruct (ExpiresAt e =? 0); [discriminate|].
    apply Z.leb_le in Hexp. apply Z.leb_le.
    pose proof (Unix_mono _ _ Hle) as Hmono.
    pose proof (Unix_nonneg _ Hepoch) as Hpos.
    rewrite uint64_nonneg in Hexp by lia.
    rewrite uint64_nonneg by lia. lia. }
  rewrite Hexp'. now eexists.
Qed.

Lemma Lock_loop_read_ok gs key startedAt w e1 obj e2 perr fuel :
  GetObject (bucket gs) (objLockName gs key) (env w) = (e1, (obj, None)) ->
  PutObject (bucket gs) (objLockName gs key)
    (list_byte_of_string (time_Format_RFC3339 (time_Now e1))) e1
  = (e2, perr) ->
  Lock_loop (S fuel) gs key startedAt w =
  Returns perr
    (Build_World (db w) e2
       (calls w ++
        [CallGetObject (bucket gs) (objLockName gs key);
         CallPutObject (bucket gs) (objLockName gs key)
           (list_byte_of_string (time_Format_RFC3339 (time_Now e1)))])).
Proof.
  intros Hobj Hput. cbn [Lock_loop]. unfold s3_GetObject. step_remote Hobj.
  erewrite putLockFile_Returns by exact Hput.
  cbn [db env calls]. now rewrite <- app_assoc.
Qed.

(** X20.  When [GetObject] returns the sentinel without an error, [Lock]
    does not look at it: whatever it holds - also a timestamp written a
    moment ago by another holder - the first iteration overwrites it with
    the current time and returns the result of the write. *)
Theorem Lock_overwrites_when_read_succeeds gs key w s err e1 obj e2 perr fuel :
  db w = Opened s ->
  txn_Get s (time_Now (env w)) key = inr err ->
  GetObject (bucket gs) (objLockName gs key) (env w) = (e1, (obj, None)) ->
  PutObject (bucket gs) (objLockName gs key)
    (list_byte_of_string (time_Format_RFC3339 (time_Now e1))) e1
  = (e2, perr) ->
  Lock (S fuel) gs key w =
  Returns perr
    (Build_World (db w) e2
       (calls w ++
        [CallGetObject (bucket gs) (objLockName gs key);
         CallPutObject (bucket gs) (objLockName gs key)
           (list_byte_of_string (time_Format_RFC3339 (time_Now e1)))])).
Proof.
  intros Hdb Hget Hobj Hput. rewrite (Lock_miss _ _ _ _ _ _ Hdb Hget).
  exact (Lock_loop_read_ok _ _ _ _ _ _ _ _ _ Hobj Hput).
Qed.

(** Before the epoch the Unix second of the clock wraps around as an
    unsigned number: an entry can count as expired then and be live
    later. *)
Lemma txn_Get_miss_before_epoch :
  let e := {| Value := []; ExpiresAt := 5 |} in
  let s : gmap string Entry := {[ "k" := e ]} in
  txn_Get s (- time.Second) "k" = inr ErrKeyNotFound /\
  txn_Get s time.Second "k" = inl e.
Proof. split; vm_compute; reflexivity. Qed.

(** X21.  Two [Lock]s of the same key with no [Unlock] in between, on a
    store that returns the sentinel the first one wrote, with a clock at
    or after the epoch that does not go back: the second does not wait
    for the first to be released, it overwrites the sentinel and returns
    the result of its own write. *)
Theorem Lock_twice_without_Unlock
    gs key w s err e1 obj1 e2 e3 obj2 e4 perr fuel1 fuel2 :
  db w = Opened s ->
  txn_Get s (time_Now (env w)) key = inr err ->
  0 <= time_Now (env w) ->
  GetObject (bucket gs) (objLockName gs key) (env w) = (e1, (obj1, None)) ->
  PutObject (bucket gs) (objLockName gs key)
    (list_byte_of_string (time_Format_RFC3339 (time_Now e1))) e1
  = (e2, None) ->
  time_Now (env w) <= time_Now e2 ->
  GetObject (bucket gs) (objLockName gs key) e2 = (e3, (obj2, None)) ->
  PutObject (bucket gs) (objLockName gs key)
    (list_byte_of_string (time_Format_RFC3339 (time_Now e3))) e3
  = (e4, perr) ->
  (do r1 <- Lock (S fuel1) gs key;
   do r2 <- Lock (S fuel2) gs key;
   ret (r1, r2)) w =
  Returns (None, perr)
    (Build_World (db w) e4
       (calls w ++
        [CallGetObject (bucket gs) (objLockName gs key);
         CallPutObject (bucket gs) (objLockName gs key)
           (list_byte_of_string (time_Format_RFC3339 (time_Now e1)));
         CallGetObject (bucket gs) (objLockName gs key);
         CallPutObject (bucket gs) (objLockName gs key)
           (list_byte_of_string (time_Format_RFC3339 (time_Now e3)))])).
Proof.
  intros Hdb Hget Hepoch Hobj1 Hput1 Hlater Hobj2 Hput2.
  destruct (txn_Get_miss_later _ _ _ _ _ Hget Hepoch Hlater) as [err' Hget'].
  erewrite bind_Returns
    by (rewrite (Lock_miss _ _ _ _ _ _ Hdb Hget);
        exact (Lock_loop_read_ok _ _ _ _ _ _ _ _ _ Hobj1 Hput1)).
  erewrite bind_Returns.
  2:{ erewrite Lock_miss; [|exact Hdb|exact Hget'].
      eapply Lock_loop_read_ok; [exact Hobj2|exact Hput2]. }
  unfold ret. cbn [db env calls]. now rewrite <- app_assoc.
Qed.

Lemma Lock_loop_never_polls gs key startedAt :
  (forall e e' obj gerr,
     GetObject (bucket gs) (objLockName gs key) e = (e', (obj, Some gerr)) ->
     snd (ioutil_ReadAll obj) <> None) ->
  forall fuel w r w',
    Lock_loop fuel gs key startedAt w = Returns r w' ->
    exists n e1,
      (n < fuel)%nat /\
      PutObject (bucket gs) (objLockName gs key)
        (list_byte_of_string (time_Format_RFC3339 (time_Now e1))) e1
      = (env w', r) /\
      db w' = db w /\
      calls w' =
      (calls w ++
       repeat (CallGetObject (bucket gs) (objLockName gs key)) (S n) ++
       [CallPutObject (bucket gs) (objLockName gs key)
          (list_byte_of_string (time_Format_RFC3339 (time_Now e1)))])%list.
Proof.
  intros Hnil. induction fuel as [|fuel IH]; intros w r w' Hret;
    [discriminate|].
  cbn [Lock_loop] in Hret. unfold s3_GetObject in Hret.
  destruct (GetObject (bucket gs) (objLockName gs key) (env w))
    as [e1 [obj gerr]] eqn:Hobj.
  rewrite (bind_Returns _ _ _ _ _ (remote_Returns _ _ _ _ _ Hobj)) in Hret.
  cbv beta iota in Hret.
  destruct gerr as [ge|].
  - pose proof (Hnil _ _ _ _ Hobj) as Hread.
    destruct (ioutil_ReadAll obj) as [buf [re|]]; [|now elim Hread].
    destruct (IH _ _ _ Hret) as (n & e1' & Hn & Hput & Hdb & Hcalls).
    exists (S n), e1'. split; [lia|]. split; [exact Hput|].
    split; [exact Hdb|].
    rewrite Hcalls. cbn [calls repeat]. now rewrite <- app_assoc.
  - destruct (PutObject (bucket gs) (objLockName gs key)
                (list_byte_of_string (time_Format_RFC3339 (time_Now e1))) e1)
      as [e2 perr] eqn:HP.
    erewrite putLockFile_Returns in Hret by exact HP.
    injection Hret as <- <-. exists 0%nat, e1. split; [lia|].
    split; [exact HP|]. split; [reflexivity|].
    cbn [calls repeat]. now rewrite <- app_assoc.
Qed.

(** X22.  With a client that hands over an unreadable object with every
    error of [GetObject] (the minio client returns a nil object), [Lock]
    never gets to the timestamp of the sentinel, to the deadline or to
    the sleep: an iteration writes the sentinel when [GetObject] returns
    no error and goes round again at once when it returns one.  So for a
    key that is not cached, whenever [Lock] returns it has sent
    [GetObject] requests followed by one [PutObject] of the current time,
    and what it returns is the result of that write - never its own error
    [acquiring lock failed]. *)
Theorem Lock_never_polls gs key fuel w s err r w' :
  (forall e e' obj gerr,
     GetObject (bucket gs) (objLockName gs key) e = (e', (obj, Some gerr)) ->
     snd (ioutil_ReadAll obj) <> None) ->
  db w = Opened s ->
  txn_Get s (time_Now (env w)) key = inr err ->
  Lock fuel gs key w = Returns r w' ->
  exists n e1,
    (n < fuel)%nat /\
    PutObject (bucket gs) (objLockName gs key)
      (list_byte_of_string (time_Format_RFC3339 (time_Now e1))) e1
    = (env w', r) /\
    db w' = db w /\
    calls w' =
    (calls w ++
     repeat (CallGetObject (bucket gs) (objLockName gs key)) (S n) ++
     [CallPutObject (bucket gs) (objLockName gs key)
        (list_byte_of_string (time_Format_RFC3339 (time_Now e1)))])%list.
Proof.
  intros Hnil Hdb Hget Hret. rewrite (Lock_miss _ _ _ _ _ _ Hdb Hget) in Hret.
  exact (Lock_loop_never_polls gs key _ Hnil fuel w r w' Hret).
Qed.

Lemma Lock_loop_requests gs key startedAt fuel :
  forall w r w',
    Lock_loop fuel gs key startedAt w = Returns r w' ->
    db w' = db w /\
    exists n,
      (n <= fuel)%nat /\
      (calls w' =
       (calls w ++
        repeat (CallGetObject (bucket gs) (objLockName gs key)) n)%list \/
       exists t,
         calls w' =
         (calls w ++
          repeat (CallGetObject (bucket gs) (objLockName gs key)) n ++
          [CallPutObject (bucket gs) (objLockName gs key)
             (list_byte_of_string (time_Format_RFC3339 t))])%list).
Proof.
  induction fuel as [|fuel IH]; intros w r w' Hret; [discriminate|].
  cbn [Lock_loop] in Hret. unfold s3_GetObject in Hret.
  destruct (GetObject (bucket gs) (objLockName gs key) (env w))
    as [e1 [[buf rerr] gerr]] eqn:Hobj.
  rewrite (bind_Returns _ _ _ _ _ (remote_Returns _ _ _ _ _ Hobj)) in Hret.
  assert (Hput : forall e,
    putLockFile gs key
      (Build_World (db w) e
         (calls w ++ [CallGetObject (bucket gs) (objLockName gs key)]))
    = Returns r w' ->
    db w' = db w /\
    exists n,
      (n <= S fuel)%nat /\
      (calls w' =
       (calls w ++
        repeat (CallGetObject (bucket gs) (objLockName gs key)) n)%list \/
       exists t,
         calls w' =
         (calls w ++
          repeat (CallGetObject (bucket gs) (objLockName gs key)) n ++
          [CallPutObject (bucket gs) (objLockName gs key)
             (list_byte_of_string (time_Format_RFC3339 t))])%list)).
  { intros e Hp.
    destruct (PutObject (bucket gs) (objLockName gs key)
                (list_byte_of_string (time_Format_RFC3339 (time_Now e))) e)
      as [e2 perr] eqn:HP.
    erewrite putLockFile_Returns in Hp by exact HP.
    injection Hp as <- <-. split; [reflexivity|].
    exists 1%nat. split; [lia|]. right. exists (time_Now e).
    cbn [calls repeat]. now rewrite <- app_assoc. }
  assert (Hrec : forall e,
    Lock_loop fuel gs key startedAt
      (Build_World (db w) e
         (calls w ++ [CallGetObject (bucket gs) (objLockName gs key)]))
    = Returns r w' ->
    db w' = db w /\
    exists n,
      (n <= S fuel)%nat /\
      (calls w' =
       (calls w ++
        repeat (CallGetObject (bucket gs) (objLockName gs key)) n)%list \/
       exists t,
         calls w' =
         (calls w ++
          repeat (CallGetObject (bucket gs) (objLockName gs key)) n ++
          [CallPutObject (bucket gs) (objLockName gs key)
             (list_byte_of_string (time_Format_RFC3339 t))])%list)).
  { intros e Hl. destruct (IH _ _ _ Hl) as (Hdb & n & Hn & Hcalls).
    split; [exact Hdb|]. exists (S n). split; [lia|].
    cbn [calls repeat] in *.
    destruct Hcalls as [-> | [t ->]]; [left|right; exists t];
      now rewrite <- app_assoc. }
  cbv beta iota in Hret.
  destruct gerr as [ge|]; [|exact (Hput _ Hret)].
  cbn [ioutil_ReadAll] in Hret.
  destruct rerr as [re|]; [exact (Hrec _ Hret)|].
  destruct (time_Parse_RFC3339 (string_of_list_byte buf)) as [lt [pe|]];
    [exact (Hput _ Hret)|].
  unfold bind at 1 in Hret. unfold Now at 1 in Hret.
  destruct (time.Before (time.Add lt LockTimeout) _); [exact (Hput _ Hret)|].
  unfold bind at 1 in Hret. unfold Now at 1 in Hret.
  destruct (time.Before (time.Add startedAt LockTimeout) _).
  - unfold ret in Hret. injection Hret as <- <-. split; [reflexivity|].
    exists 1%nat. split; [lia|]. left. reflexivity.
  - unfold bind at 1 in Hret. unfold Sleep at 1 in Hret.
    exact (Hrec _ Hret).
Qed.

(** X24.  Whenever [Lock] returns, the cache is as it was and all it has
    sent are [GetObject] requests on the sentinel of the key, followed by
    at most one [PutObject] on that sentinel whose body is a formatted
    timestamp: it never removes anything, never touches another object,
    and a write is always its last request. *)
Theorem Lock_requests gs key fuel w r w' :
  Lock fuel gs key w = Returns r w' ->
  db w' = db w /\
  exists n,
    (n <= fuel)%nat /\
    (calls w' =
     (calls w ++
      repeat (CallGetObject (bucket gs) (objLockName gs key)) n)%list \/
     exists t,
       calls w' =
       (calls w ++
        repeat (CallGetObject (bucket gs) (objLockName gs key)) n ++
        [CallPutObject (bucket gs) (objLockName gs key)
           (list_byte_of_string (time_Format_RFC3339 t))])%list).
Proof.
  unfold Lock. intros Hret. unfold bind at 1 in Hret.
  unfold isCacheEntryExistent in Hret.
  destruct (db_View (db w) (time_Now (env w)) _ tt) as [[u [e|]]|];
    [| |discriminate].
  - unfold bind at 1 in Hret. unfold Now at 1 in Hret.
    exact (Lock_loop_requests _ _ _ _ _ _ _ Hret).
  - unfold ret in Hret. injection Hret as <- <-. split; [reflexivity|].
    exists 0%nat. split; [lia|]. left. cbn [repeat]. now rewrite app_nil_r.
Qed.

End Coverage.

(** * The further properties on the concrete world *)

Lemma setCacheEntry_then_lookup_witness :
  let w := Sample.world (Opened ∅) ∅ 0 in
  let data := Sample.body "certificate" in
  (exists w1,
     setCacheEntry "k" data time.Hour w = Returns tt w1 /\
     isCacheEntryExistent "k" w1 = Returns true w1 /\
     getCacheEntry "k" w1 = Returns (Some (string_of_list_byte data)) w1) /\
  (exists w1,
     setCacheEntry "!badger!x" data time.Hour w = Returns tt w1 /\
     db w1 = Opened ∅).
Proof.
  intros w data. split.
  - assert (Hok : txn_modify_check "k" data = None) by reflexivity.
    pose proof (setCacheEntry_then_lookup "k" data time.Hour w ∅ eq_refl)
      as Hset.
    cbv zeta in Hset. destruct Hset as (w1 & Hset & Henv & _ & _ & Hlook).
    exists w1. split; [exact Hset|].
    destruct (Hlook Hok w1 eq_refl) as [Hlive _].
    destruct Hlive as (Hex & Hget & _).
    + rewrite Henv. vm_compute. discriminate.
    + rewrite Henv. vm_compute. reflexivity.
    + split; assumption.
  - assert (Hno : txn_modify_check "!badger!x" data = Some ErrInvalidKey)
      by reflexivity.
    pose proof (setCacheEntry_then_lookup "!badger!x" data time.Hour w ∅
                  eq_refl) as Hset.
    cbv zeta in Hset. destruct Hset as (w1 & Hset & _ & _ & Hsame & _).
    exists w1. split; [exact Hset|]. exact (Hsame _ Hno).
Defined.

Lemma setCacheEntry_other_keys_witness :
  let old := Sample.cached (Sample.body "other") in
  let w := Sample.world (Opened {[ "j" := old ]}) ∅ 0 in
  exists s1,
    setCacheEntry "k" (Sample.body "certificate") time.Hour w
    = Returns tt (Build_World (Opened s1) (env w) (calls w)) /\
    returned (getCacheEntry "j" (Build_World (Opened s1) (env w) []))
    = Some (Some "other").
Proof.
  intros old w.
  destruct (setCacheEntry_other_keys "k" (Sample.body "certificate")
              time.Hour w {[ "j" := old ]} "j" eq_refl)
    as (s1 & Hset & Hsame).
  - discriminate.
  - exists s1. split; [exact Hset|].
    destruct (Hsame (env w) []) as [_ Hget]. rewrite Hget.
    vm_compute. reflexivity.
Defined.

Lemma isCacheEntryExistent_agrees_with_getCacheEntry_witness :
  let w := Sample.world (Opened ∅) ∅ 0 in
  exists o,
    getCacheEntry "k" w = Returns o w /\
    isCacheEntryExistent "k" w
    = Returns (match o with Some _ => true | None => false end) w.
Proof.
  intros w.
  apply (isCacheEntryExistent_agrees_with_getCacheEntry "k" w).
  discriminate.
Defined.

Lemma Unlock_uncached_key_witness :
  let o : gmap (string * string) (bytes * Time) :=
    {[ ("certs", "acme/k.lock") :=
         (Sample.body "2023-11-14T22:13:00Z", Sample.t0 - 20 * time.Second) ]} in
  Unlock Sample.gs "k" (Sample.world (Opened ∅) o 0) =
  Returns None
    (Build_World (Opened ∅) (Sample.remote ∅ 0)
       [CallRemoveObject "certs" "acme/k.lock"]).
Proof.
  intros o.
  refine (Unlock_uncached_key Sample.gs "k" (Sample.world (Opened ∅) o 0)
            ∅ ErrKeyNotFound (Sample.remote ∅ 0) None _ _ _).
  - reflexivity.
  - reflexivity.
  - vm_compute. reflexivity.
Defined.

Lemma Delete_leaves_cache_witness :
  let d := Opened {[ "k" := Sample.cached (Sample.body "certificate") ]} in
  let o : gmap (string * string) (bytes * Time) :=
    {[ ("certs", "acme/k") := (Sample.body "certificate", Sample.t0 - 5) ]} in
  let w' := Build_World d (Sample.remote ∅ 0)
              [CallRemoveObject "certs" "acme/k"] in
  Delete Sample.gs "k" (Sample.world d o 0) = Returns None w' /\
  Load Sample.gs "k" w' = Returns (Sample.body "certificate", None) w'.
Proof.
  intros d o w'.
  destruct (Delete_leaves_cache Sample.gs "k" (Sample.world d o 0)
              (Sample.remote ∅ 0) None) as [Hdel Hload].
  - vm_compute. reflexivity.
  - split; [exact Hdel|].
    apply (Hload _ (Sample.cached (Sample.body "certificate")) eq_refl).
    vm_compute. reflexivity.
Defined.

Lemma Exists_ignores_cache_witness :
  let d := Opened {[ "k" := Sample.cached (Sample.body "certificate") ]} in
  let w' := Build_World d (Sample.remote ∅ 0)
              [CallStatObject "certs" "acme/k"] in
  Exists Sample.gs "k" (Sample.world d ∅ 0) = Returns false w' /\
  Load Sample.gs "k" w' = Returns (Sample.body "certificate", None) w'.
Proof.
  intros d w'.
  destruct (Exists_ignores_cache Sample.gs "k" (Sample.world d ∅ 0)
              (Sample.remote ∅ 0) MemStore.no_info
              (Some MemStore.NoSuchKey)) as [Hex Hload].
  - reflexivity.
  - split; [exact Hex|].
    apply (Hload _ (Sample.cached (Sample.body "certificate")) eq_refl).
    vm_compute. reflexivity.
Defined.

Lemma Load_changes_own_entry_only_witness :
  let old := Sample.cached (Sample.body "other") in
  exists r w' s',
    Load Sample.gs "k" (Sample.world (Opened {[ "j" := old ]}) ∅ 0)
    = Returns r w' /\
    db w' = Opened s' /\ s' !! "j" = Some old.
Proof.
  intros old.
  destruct (Load_changes_own_entry_only Sample.gs "k"
              (Sample.world (Opened {[ "j" := old ]}) ∅ 0)
              {[ "j" := old ]} eq_refl)
    as (r & w' & s' & Hload & Hdb & Hframe & _).
  exists r, w', s'. split; [exact Hload|]. split; [exact Hdb|].
  rewrite (Hframe "j"); [reflexivity|discriminate].
Defined.

Lemma Store_then_Load_witness :
  let k32 := Sample.body "supersecretkeyofexactly32bytes!!" in
  let gs := {| prefix := "acme"; bucket := "certs";
               iowrap := SecretBoxIO k32 |} in
  let value := Sample.body "certificate" in
  let sealed := (k32 ++ value)%list in
  (do _ <- Store gs "k" value; Load gs "k") (Sample.world (Opened ∅) ∅ 0) =
  Returns (value, None)
    (Build_World
       (Opened {[ "k" := Sample.cached value ]})
       (Sample.remote {[ ("certs", "acme/k") := (sealed, Sample.t0) ]} 0)
       [CallPutObject "certs" "acme/k" sealed;
        CallGetObject "certs" "acme/k"]).
Proof.
  intros k32 gs value sealed.
  etransitivity.
  - refine (Store_then_Load gs "k" value (Sample.world (Opened ∅) ∅ 0) ∅
              ErrKeyNotFound
              (Sample.remote {[ ("certs", "acme/k") := (sealed, Sample.t0) ]} 0)
              (Sample.remote {[ ("certs", "acme/k") := (sealed, Sample.t0) ]} 0)
              _ _ _ _ _).
    + reflexivity.
    + vm_compute. reflexivity.
    + reflexivity.
    + vm_compute. reflexivity.
    + vm_compute. reflexivity.
  - vm_compute. reflexivity.
Defined.

Lemma Unlock_after_Load_sends_nothing_witness :
  let o : gmap (string * string) (bytes * Time) :=
    {[ ("certs", "acme/k") := (Sample.body "certificate", Sample.t0 - 5) ]} in
  exists w1,
    Load Sample.gs "k" (Sample.world (Opened ∅) o 0)
    = Returns (Sample.body "certificate", None) w1 /\
    calls w1 = [CallGetObject "certs" "acme/k"] /\
    Unlock Sample.gs "k" w1 = Returns None w1.
Proof.
  intros o.
  assert (Hmiss : txn_Get ∅ (time_Now (env (Sample.world (Opened ∅) o 0))) "k"
                  = inr ErrKeyNotFound) by reflexivity.
  assert (Hok : txn_modify_check "k" (Sample.body "certificate") = None)
    by reflexivity.
  destruct (Unlock_after_Load_sends_nothing Sample.gs "k"
              (Sample.world (Opened ∅) o 0) ∅ ErrKeyNotFound
              (Sample.remote o 0) (Sample.body "certificate", None)
              (Sample.body "certificate") eq_refl Hmiss)
    as (w1 & Hload & Hcalls & Hhit & _).
  - vm_compute. reflexivity.
  - reflexivity.
  - exists w1. split; [exact Hload|]. split; [exact Hcalls|].
    destruct (Hhit Hok) as [Hunlock _]; [|exact Hunlock].
    vm_compute. discriminate.
Defined.

Lemma Stat_cache_hit_witness :
  let ki := {| Key := "elsewhere"; Modified := Sample.t0; Size := 7;
               IsTerminal := true |} in
  let d := Opened {[ "k_ki" := Sample.cached (fst (json.Marshal ki)) ]} in
  let w := Sample.world d ∅ 0 in
  Stat Sample.gs "k" w = Returns (ki, None) w.
Proof.
  intros ki d w.
  refine (Stat_cache_hit Sample.gs "k" w _
            (Sample.cached (fst (json.Marshal ki))) ki _ _ _).
  - reflexivity.
  - vm_compute. reflexivity.
  - vm_compute. reflexivity.
Defined.

Lemma Stat_twice_witness :
  let o : gmap (string * string) (bytes * Time) :=
    {[ ("certs", "acme/k") := (Sample.body "certificate", Sample.t0) ]} in
  let ki := {| Key := "k"; Modified := Sample.t0; Size := 11;
               IsTerminal := true |} in
  exists w1,
    Stat Sample.gs "k" (Sample.world (Opened ∅) o 0) = Returns (ki, None) w1 /\
    Stat Sample.gs "k" (Build_World (db w1) (Sample.remote ∅ 0) [])
    = Returns (ki, None) (Build_World (db w1) (Sample.remote ∅ 0) []).
Proof.
  intros o ki.
  assert (Hmiss : txn_Get ∅ (time_Now (env (Sample.world (Opened ∅) o 0)))
                    "k_ki" = inr ErrKeyNotFound) by reflexivity.
  assert (Hok : txn_modify_check "k_ki" (fst (json.Marshal ki)) = None)
    by (vm_compute; reflexivity).
  destruct (Stat_twice Sample.gs "k" (Sample.world (Opened ∅) o 0) ∅
              ErrKeyNotFound (Sample.remote o 0)
              {| oi_Key := "acme/k"; oi_Size := 11;
                 oi_LastModified := Sample.t0 |}
              (fst (json.Marshal ki)) eq_refl Hmiss)
    as (w1 & Hstat & _ & Hagain).
  - vm_compute. reflexivity.
  - reflexivity.
  - vm_compute. reflexivity.
  - exists w1. split; [exact Hstat|].
    apply (Hagain Hok); [reflexivity| |].
    + vm_compute. discriminate.
    + vm_compute. reflexivity.
Defined.

Lemma Stat_remote_error_witness :
  Stat Sample.gs "k" (Sample.world (Opened ∅) ∅ 0) =
  Returns (KeyInfo_zero, Some MemStore.NoSuchKey)
    (Build_World (Opened ∅) (Sample.remote ∅ 0)
       [CallStatObject "certs" "acme/k"]).
Proof.
  refine (Stat_remote_error Sample.gs "k" (Sample.world (Opened ∅) ∅ 0) ∅
            ErrKeyNotFound (Sample.remote ∅ 0) MemStore.no_info
            MemStore.NoSuchKey _ _ _); reflexivity.
Defined.

Lemma Stat_undecodable_entry_witness :
  let junk := Sample.cached (Sample.body "certificate") in
  let o : gmap (string * string) (bytes * Time) :=
    {[ ("certs", "acme/k") := (Sample.body "certificate", Sample.t0) ]} in
  let ki := {| Key := "k"; Modified := Sample.t0; Size := 11;
               IsTerminal := true |} in
  Stat Sample.gs "k" (Sample.world (Opened {[ "k_ki" := junk ]}) o 0) =
  Returns (ki, None)
    (Build_World
       (Opened {[ "k_ki" := Sample.cached (fst (json.Marshal ki)) ]})
       (Sample.remote o 0) [CallStatObject "certs" "acme/k"]).
Proof.
  intros junk o ki.
  assert (Hhit : txn_Get {[ "k_ki" := junk ]}
                   (time_Now (env (Sample.world (Opened {[ "k_ki" := junk ]})
                                     o 0))) "k_ki" = inl junk)
    by (vm_compute; reflexivity).
  destruct (Stat_undecodable_entry Sample.gs "k"
              (Sample.world (Opened {[ "k_ki" := junk ]}) o 0)
              {[ "k_ki" := junk ]} junk KeyInfo_zero json.bad
              (Sample.remote o 0)
              {| oi_Key := "acme/k"; oi_Size := 11;
                 oi_LastModified := Sample.t0 |} eq_refl Hhit)
    as [_ Hfresh].
  - vm_compute. reflexivity.
  - etransitivity.
    + apply (Hfresh (fst (json.Marshal ki))); vm_compute; reflexivity.
    + vm_compute. reflexivity.
Defined.

Lemma NewS3Storage_32_byte_key_witness :
  let k := Sample.body "supersecretkeyofexactly32bytes!!" in
  let opts :=
    {| Endpoint := "very-cool.s3.backblazeb2.com";
       Bucket := "your-crypto-bucket"; AccessKeyID := "some-key";
       SecretAccessKey := "some-secret";
       ObjPrefix := "all-objects-will-start-with-this";
       EncryptionKey := Some k |} in
  let m := {| MemStore.buckets := ["your-crypto-bucket"];
              MemStore.objects := ∅; MemStore.clock := Sample.t0;
              MemStore.latency := 0 |} in
  NewS3Storage opts (Build_World (Opened ∅) m []) =
  Returns (Some {| prefix := "all-objects-will-start-with-this";
                   bucket := "your-crypto-bucket";
                   iowrap := SecretBoxIO k |}, None)
    (Build_World (Opened ∅) m [CallBucketExists "your-crypto-bucket"]).
Proof.
  intros k opts m.
  refine (NewS3Storage_32_byte_key opts k (Build_World (Opened ∅) m []) m m
            _ _ _ _); reflexivity.
Defined.

Lemma NewS3Storage_connection_errors_witness :
  let opts :=
    {| Endpoint := "s3.example.com"; Bucket := "missing";
       AccessKeyID := "id"; SecretAccessKey := "secret";
       ObjPrefix := "acme"; EncryptionKey := None |} in
  let w := Sample.world (Opened ∅) ∅ 0 in
  NewS3Storage opts w =
  Returns (None, Some (errorsNew "S3 bucket missing does not exist"))
    (Build_World (Opened ∅) (Sample.remote ∅ 0) [CallBucketExists "missing"]).
Proof.
  intros opts w.
  destruct (NewS3Storage_connection_errors opts w (or_introl eq_refl))
    as (_ & _ & Hmissing).
  apply (Hmissing (Sample.remote ∅ 0) (Sample.remote ∅ 0)); reflexivity.
Defined.

Lemma Lock_overwrites_when_read_succeeds_witness :
  let held := Sample.body "2023-11-14T22:13:19Z" in
  let o : gmap (string * string) (bytes * Time) :=
    {[ ("certs", "acme/k.lock") := (held, Sample.t0 - time.Second) ]} in
  let fresh := Sample.body "2023-11-14T22:13:20Z" in
  Lock 1 Sample.gs "k" (Sample.world (Opened ∅) o 0) =
  Returns None
    (Build_World (Opened ∅)
       (Sample.remote (<[("certs", "acme/k.lock") := (fresh, Sample.t0)]> o) 0)
       [CallGetObject "certs" "acme/k.lock";
        CallPutObject "certs" "acme/k.lock" fresh]).
Proof.
  intros held o fresh.
  refine (Lock_overwrites_when_read_succeeds Sample.gs "k"
            (Sample.world (Opened ∅) o 0) ∅ ErrKeyNotFound (Sample.remote o 0)
            (held, None)
            (Sample.remote
               (<[("certs", "acme/k.lock") := (fresh, Sample.t0)]> o) 0)
            None 0 _ _ _ _).
  - reflexivity.
  - reflexivity.
  - vm_compute. reflexivity.
  - vm_compute. reflexivity.
Defined.

Lemma Lock_twice_without_Unlock_witness :
  let fresh := Sample.body "2023-11-14T22:13:20Z" in
  let o : gmap (string * string) (bytes * Time) :=
    {[ ("certs", "acme/k.lock") := (fresh, Sample.t0) ]} in
  exists w',
    (do r1 <- Lock 1 Sample.gs "k";
     do r2 <- Lock 1 Sample.gs "k";
     ret (r1, r2)) (Sample.world (Opened ∅) o 0)
    = Returns (None, None) w' /\
    calls w' =
    [CallGetObject "certs" "acme/k.lock";
     CallPutObject "certs" "acme/k.lock" fresh;
     CallGetObject "certs" "acme/k.lock";
     CallPutObject "certs" "acme/k.lock" fresh].
Proof.
  intros fresh o.
  assert (Hmiss : txn_Get ∅ (time_Now (env (Sample.world (Opened ∅) o 0)))
                    "k" = inr ErrKeyNotFound) by reflexivity.
  eexists. split.
  - refine (Lock_twice_without_Unlock Sample.gs "k"
              (Sample.world (Opened ∅) o 0) ∅ ErrKeyNotFound
              (Sample.remote o 0) (fresh, None) (Sample.remote o 0)
              (Sample.remote o 0) (fresh, None) (Sample.remote o 0) None
              0 0 eq_refl Hmiss _ _ _ _ _ _).
    + vm_compute. discriminate.
    + vm_compute. reflexivity.
    + vm_compute. reflexivity.
    + vm_compute. discriminate.
    + vm_compute. reflexivity.
    + vm_compute. reflexivity.
  - reflexivity.
Defined.

Lemma Lock_never_polls_witness :
  let held := Sample.body "2023-11-14T22:13:19Z" in
  let o : gmap (string * string) (bytes * Time) :=
    {[ ("certs", "acme/k.lock") := (held, Sample.t0 - time.Second) ]} in
  let fresh := Sample.body "2023-11-14T22:13:20Z" in
  let w := Sample.world (Opened ∅) o 0 in
  let w' :=
    Build_World (Opened ∅)
      (Sample.remote (<[("certs", "acme/k.lock") := (fresh, Sample.t0)]> o) 0)
      [CallGetObject "certs" "acme/k.lock";
       CallPutObject "certs" "acme/k.lock" fresh] in
  Lock 1 Sample.gs "k" w = Returns None w' /\
  exists n e1,
    (n < 1)%nat /\
    PutObject "certs" "acme/k.lock"
      (list_byte_of_string (time_Format_RFC3339 (time_Now e1))) e1
    = (env w', None).
Proof.
  intros held o fresh w w'.
  assert (Hmiss : txn_Get ∅ (time_Now (env w)) "k" = inr ErrKeyNotFound)
    by reflexivity.
  assert (Hret : Lock 1 Sample.gs "k" w = Returns None w')
    by (vm_compute; reflexivity).
  split; [exact Hret|].
  destruct (Lock_never_polls Sample.gs "k" 1 w ∅ ErrKeyNotFound None w')
    as (n & e1 & Hn & Hput & _); [|reflexivity|exact Hmiss|exact Hret|].
  - intros e e' obj gerr Hobj.
    change (MemStore.get "certs" "acme/k.lock" e = (e', (obj, Some gerr)))
      in Hobj.
    unfold MemStore.get in Hobj.
    destruct (MemStore.check_names "certs" "acme/k.lock").
    + injection Hobj as _ <- _. discriminate.
    + destruct (MemStore.objects e !! ("certs", "acme/k.lock")) as [[? ?]|];
        discriminate.
  - exists n, e1. split; [exact Hn|exact Hput].
Defined.

Lemma Lock_requests_witness :
  let fresh := Sample.body "2023-11-14T22:13:20Z" in
  let o : gmap (string * string) (bytes * Time) :=
    {[ ("certs", "acme/k.lock") := (fresh, Sample.t0) ]} in
  let w := Sample.world (Opened ∅) o 0 in
  exists n,
    (n <= 1)%nat /\
    ([CallGetObject "certs" "acme/k.lock";
      CallPutObject "certs" "acme/k.lock" fresh]
     = ([] ++ repeat (CallGetObject "certs" "acme/k.lock") n)%list \/
     exists t,
       [CallGetObject "certs" "acme/k.lock";
        CallPutObject "certs" "acme/k.lock" fresh]
       = ([] ++ repeat (CallGetObject "certs" "acme/k.lock") n ++
          [CallPutObject "certs" "acme/k.lock"
             (list_byte_of_string (time_Format_RFC3339 t))])%list).
Proof.
  intros fresh o w.
  assert (Hret : Lock 1 Sample.gs "k" w =
                 Returns None
                   (Build_World (Opened ∅) (Sample.remote o 0)
                      [CallGetObject "certs" "acme/k.lock";
                       CallPutObject "certs" "acme/k.lock" fresh]))
    by (vm_compute; reflexivity).
  exact (proj2 (Lock_requests Sample.gs "k" 1 w _ _ Hret)).
Defined.
